(** * Amoeba division simulation: a shallow embedding of [amoeba_model.py]

    The development follows the Python module top to bottom: the organism
    ([Amoeba]), the [Environment], the metrics aggregation ([collect_data]) and
    the simulation driver ([AmoebaDivisionModel]).  Python objects live in a
    store addressed by references, exceptions are values of [exn], and the two
    pseudo-random generators the module draws from are explicit tapes. *)

From Stdlib Require Import ZArith Lia.
From stdpp Require Import base option list gmap strings.

Local Open Scope string_scope.
Local Open Scope list_scope.
Local Open Scope Z_scope.

(** ** Exceptions and the state-and-error monad *)

Inductive exn : Type :=
| ValueError      (* numpy: empty range handed to randint *)
| TypeError       (* unpacking a position that is None *)
| AttributeError  (* reading an attribute that was never assigned *)
| IndexError      (* choice from an empty sequence *)
| ReferenceError  (* a reference that points outside the object store *)
| CellNotEmpty.   (* the grid refuses a second occupant *)

Inductive result (A : Type) : Type :=
| Ok (a : A)
| Raise (e : exn).
Arguments Ok {A} a.
Arguments Raise {A} e.

Definition M (S A : Type) : Type := S -> result (A * S).

Definition ret {S A : Type} (a : A) : M S A := fun s => Ok (a, s).

Definition bind {S A B : Type} (c : M S A) (k : A -> M S B) : M S B :=
  fun s => match c s with
           | Ok (a, s') => k a s'
           | Raise e => Raise e
           end.

Definition raise {S A : Type} (e : exn) : M S A := fun _ => Raise e.

Definition get {S : Type} : M S S := fun s => Ok (s, s).

Definition modify {S : Type} (f : S -> S) : M S unit := fun s => Ok (tt, f s).

(** Run a computation on a component of the state. *)
Definition zoom {S T A : Type} (proj : S -> T) (upd : T -> S -> S)
    (c : M T A) : M S A :=
  fun s => match c (proj s) with
           | Ok (a, t) => Ok (a, upd t s)
           | Raise e => Raise e
           end.

Notation "x <- c ;; k" := (bind c (fun x => k))
  (at level 62, c at next level, right associativity).
Notation "c ;;; k" := (bind c (fun _ => k))
  (at level 62, right associativity).

Fixpoint for_each {S A : Type} (l : list A) (body : A -> M S unit) : M S unit :=
  match l with
  | [] => ret tt
  | x :: xs => body x ;;; for_each xs body
  end.

Fixpoint map_m {S A B : Type} (f : A -> M S B) (l : list A) : M S (list B) :=
  match l with
  | [] => ret []
  | x :: xs => b <- f x ;; bs <- map_m f xs ;; ret (b :: bs)
  end.

(** ** Pseudo-random sources

    A generator is a tape of naturals and a read position; every draw
    consumes one entry.  Any sequence of outcomes is produced by some tape. *)

Record Rng : Type := mkRng { tape : nat -> nat; cursor : nat }.

Definition draw : M Rng nat :=
  fun g => Ok (tape g (cursor g), mkRng (tape g) (S (cursor g))).

(** [np.random.randint(low, high)]: an integer in [low, high), and a
    [ValueError] when the range is empty. *)
Definition randint (low high : Z) : M Rng Z :=
  if low <? high
  then r <- draw ;; ret (low + Z.of_nat r mod (high - low))
  else raise ValueError.

(** [random.choice(seq)]. *)
Definition choice {A : Type} (seq : list A) : M Rng A :=
  r <- draw ;;
  match seq !! (r mod length seq)%nat with
  | Some x => ret x
  | None => raise IndexError
  end.

Definition insert_at {A : Type} (n : nat) (x : A) (l : list A) : list A :=
  take n l ++ x :: drop n l.

(** [random.shuffle]: a rearrangement of the list decided by the tape. *)
Fixpoint shuffle (l : list nat) (g : Rng) : list nat * Rng :=
  match l with
  | [] => ([], g)
  | x :: xs =>
      let '(ys, g1) := shuffle xs g in
      (insert_at (tape g1 (cursor g1) mod S (length ys))%nat x ys,
       mkRng (tape g1) (S (cursor g1)))
  end.

(** ** Environment *)

Record Environment : Type := mkEnvironment {
  month : Z;
  water_quality : Z;
  temperature : Z;
  temperature_description : string
}.

Definition in_list (x : Z) (l : list Z) : bool := existsb (Z.eqb x) l.

Definition str_in (s : string) (l : list string) : bool := existsb (String.eqb s) l.

Definition adjust_water_quality (self : Environment) : M Rng Environment :=
  if in_list (month self) [12; 1; 2] then
    w <- randint 0 50 ;;
    ret (mkEnvironment (month self) w (temperature self) (temperature_description self))
  else if in_list (month self) [6; 7; 8] then
    w <- randint 50 100 ;;
    ret (mkEnvironment (month self) w (temperature self) (temperature_description self))
  else
    w <- randint 75 100 ;;
    ret (mkEnvironment (month self) w (temperature self) (temperature_description self)).

Definition adjust_temperature (self : Environment) : M Rng Environment :=
  if in_list (month self) [12; 1; 2] then
    t <- randint (-20) 10 ;;
    ret (mkEnvironment (month self) (water_quality self) t "sub-zero")
  else if in_list (month self) [6; 7; 8] then
    t <- randint 30 60 ;;
    ret (mkEnvironment (month self) (water_quality self) t "extreme hot")
  else
    t <- randint 15 25 ;;
    ret (mkEnvironment (month self) (water_quality self) t "normal").

Definition update_conditions (self : Environment) : M Rng Environment :=
  e1 <- adjust_water_quality self ;;
  adjust_temperature e1.

(** [Environment.__init__]: the fields other than [month] do not exist
    before [update_conditions] assigns them; the placeholders below are
    overwritten before anything reads them. *)
Definition Environment_init (m : Z) : M Rng Environment :=
  update_conditions (mkEnvironment m 0 0 "").

Definition is_encystment_condition (self : Environment) : bool :=
  (water_quality self <? 50)
  || str_in (temperature_description self) ["sub-zero"; "extreme hot"].

Definition is_excystment_condition (self : Environment) : bool :=
  (50 <=? water_quality self) && String.eqb (temperature_description self) "normal".

Definition is_div_condition (self : Environment) : bool :=
  (50 <=? water_quality self) && String.eqb (temperature_description self) "normal".

Definition increment_month (self : Environment) : Environment :=
  mkEnvironment (if month self =? 12 then 1 else month self + 1)
    (water_quality self) (temperature self) (temperature_description self).

(** ** Organisms, grid, scheduler and the simulation state *)

Definition position : Type := Z * Z.

(** An [Amoeba] object.  [pos] is the attribute the grid assigns on
    placement ([None] before); [new_position] and [new_amoeba] do not exist
    until the first division is initiated, which [None] stands for.
    [new_amoeba] holds a reference into the object store. *)
Record Amoeba : Type := mkAmoeba {
  unique_id : Z;
  state : string;
  dividing_next_step : bool;
  pos : option position;
  new_position : option position;
  new_amoeba : option nat
}.

(** Modelled from the spec: the toolkit's single-occupancy grid, a mapping
    from coordinate to at most one organism reference (sections 3 and 4.1);
    its class is imported, not defined, by the module. *)
Record SingleGrid : Type := mkSingleGrid {
  width : Z;
  height : Z;
  torus : bool;
  cells : gmap position nat
}.

(** Modelled from the spec: the toolkit's scheduler, the registry of
    organisms in registration order and the count of completed passes
    (section 4.4). *)
Record RandomActivation : Type := mkRandomActivation {
  agents : list nat;
  steps : Z
}.

(** The dictionary built by [collect_data]. *)
Record Data : Type := mkData {
  d_step : Z;
  d_intact : nat;
  d_dividing : nat;
  d_divided : nat;
  d_encysted : nat;
  d_excysted : nat;
  d_stressed : nat;
  d_water_quality : Z;
  d_temperature : Z;
  d_month : Z
}.

(** The model object together with what it reaches: the store of [Amoeba]
    objects ([objects], indexed by reference), the identifier counter and
    generator of the base class, and numpy's global generator. *)
Record AmoebaDivisionModel : Type := mkModel {
  grid : SingleGrid;
  schedule : RandomActivation;
  environment : Environment;
  data_collector : list Data;
  objects : list Amoeba;
  current_id : Z;
  random : Rng;
  np_random : Rng
}.

Definition with_grid (g : SingleGrid) (m : AmoebaDivisionModel) : AmoebaDivisionModel :=
  mkModel g (schedule m) (environment m) (data_collector m) (objects m)
    (current_id m) (random m) (np_random m).

Definition with_schedule (s : RandomActivation) (m : AmoebaDivisionModel) : AmoebaDivisionModel :=
  mkModel (grid m) s (environment m) (data_collector m) (objects m)
    (current_id m) (random m) (np_random m).

Definition with_environment (e : Environment) (m : AmoebaDivisionModel) : AmoebaDivisionModel :=
  mkModel (grid m) (schedule m) e (data_collector m) (objects m)
    (current_id m) (random m) (np_random m).

Definition with_data_collector (d : list Data) (m : AmoebaDivisionModel) : AmoebaDivisionModel :=
  mkModel (grid m) (schedule m) (environment m) d (objects m)
    (current_id m) (random m) (np_random m).

Definition with_objects (os : list Amoeba) (m : AmoebaDivisionModel) : AmoebaDivisionModel :=
  mkModel (grid m) (schedule m) (environment m) (data_collector m) os
    (current_id m) (random m) (np_random m).

Definition with_current_id (i : Z) (m : AmoebaDivisionModel) : AmoebaDivisionModel :=
  mkModel (grid m) (schedule m) (environment m) (data_collector m) (objects m)
    i (random m) (np_random m).

Definition with_random (g : Rng) (m : AmoebaDivisionModel) : AmoebaDivisionModel :=
  mkModel (grid m) (schedule m) (environment m) (data_collector m) (objects m)
    (current_id m) g (np_random m).

Definition with_np_random (g : Rng) (m : AmoebaDivisionModel) : AmoebaDivisionModel :=
  mkModel (grid m) (schedule m) (environment m) (data_collector m) (objects m)
    (current_id m) (random m) g.

(** *** Attribute access through a reference *)

Definition get_agent (a : nat) : M AmoebaDivisionModel Amoeba :=
  fun m => match objects m !! a with
           | Some o => Ok (o, m)
           | None => Raise ReferenceError
           end.

Definition update_agent (a : nat) (f : Amoeba -> Amoeba) : M AmoebaDivisionModel unit :=
  fun m => match objects m !! a with
           | Some o => Ok (tt, with_objects (<[a := f o]> (objects m)) m)
           | None => Raise ReferenceError
           end.

Definition set_state (s : string) (o : Amoeba) : Amoeba :=
  mkAmoeba (unique_id o) s (dividing_next_step o) (pos o) (new_position o) (new_amoeba o).

Definition set_dividing_next_step (b : bool) (o : Amoeba) : Amoeba :=
  mkAmoeba (unique_id o) (state o) b (pos o) (new_position o) (new_amoeba o).

Definition set_pos (p : position) (o : Amoeba) : Amoeba :=
  mkAmoeba (unique_id o) (state o) (dividing_next_step o) (Some p) (new_position o) (new_amoeba o).

Definition set_new_position (p : position) (o : Amoeba) : Amoeba :=
  mkAmoeba (unique_id o) (state o) (dividing_next_step o) (pos o) (Some p) (new_amoeba o).

Definition set_new_amoeba (c : nat) (o : Amoeba) : Amoeba :=
  mkAmoeba (unique_id o) (state o) (dividing_next_step o) (pos o) (new_position o) (Some c).

(** Reading an attribute that may not have been assigned yet. *)
Definition attribute {S A : Type} (e : exn) (v : option A) : M S A :=
  match v with
  | Some x => ret x
  | None => raise e
  end.

(** [Amoeba.__init__]: a new object in the store, not yet placed nor
    registered; the result is the reference to it. *)
Definition Amoeba_init (uid : Z) : M AmoebaDivisionModel nat :=
  fun m => Ok (length (objects m),
               with_objects (objects m ++ [mkAmoeba uid "intact" false None None None]) m).

(** [Model.next_id] of the toolkit's base class: a counter that starts at 0
    and is incremented before it is returned. *)
Definition next_id : M AmoebaDivisionModel Z :=
  fun m => Ok (current_id m + 1, with_current_id (current_id m + 1) m).

(** *** Grid and scheduler operations *)

Definition SingleGrid_init (w h : Z) (t : bool) : SingleGrid := mkSingleGrid w h t ∅.

Definition is_cell_empty (g : SingleGrid) (p : position) : bool :=
  match cells g !! p with
  | None => true
  | Some _ => false
  end.

(** Modelled from the spec: [place] fails when the cell already holds an
    organism (section 4.1); on success the cell records the organism and the
    organism records the cell. *)
Definition place_agent (agent : nat) (p : position) : M AmoebaDivisionModel unit :=
  m <- get ;;
  if is_cell_empty (grid m) p then
    modify (fun m => with_grid (mkSingleGrid (width (grid m)) (height (grid m))
                                  (torus (grid m)) (<[p := agent]> (cells (grid m)))) m) ;;;
    update_agent agent (set_pos p)
  else raise CellNotEmpty.

Definition RandomActivation_init : RandomActivation := mkRandomActivation [] 0.

(** Modelled from the spec: registration appends the organism to the
    registry (sections 4.3 and 4.4). *)
Definition schedule_add (agent : nat) : M AmoebaDivisionModel unit :=
  modify (fun m => with_schedule
                     (mkRandomActivation (agents (schedule m) ++ [agent]) (steps (schedule m))) m).

(** Modelled from the spec: the Moore neighbourhood under toroidal wrap,
    without the centre offset, as a duplicate-free sequence (section 4.1).
    The development is parametric in the neighbourhood function; this one
    instantiates it. *)
Definition moore_torus (g : SingleGrid) (p : position) : list position :=
  remove_dups
    (map (fun d : Z * Z => ((p.1 + d.1) mod width g, (p.2 + d.2) mod height g))
       [(-1, -1); (-1, 0); (-1, 1); (0, -1); (0, 1); (1, -1); (1, 0); (1, 1)]).

(** The states the module assigns. *)
Definition known_states : list string :=
  ["intact"; "dividing"; "divided"; "encysted"; "excysted"; "stressed"].

Definition known_descriptions : list string :=
  ["sub-zero"; "extreme hot"; "normal"].

Definition count_state (s : string) (l : list string) : nat :=
  length (List.filter (fun x => String.eqb x s) l).

Section Simulation.

(** [grid.get_neighborhood(pos, moore=True, include_center=False)] of the
    toolkit, left abstract: every result below holds whatever cells it
    returns. *)
Variable get_neighborhood : SingleGrid -> position -> list position.

(** ** [Amoeba.divide_if_possible] *)

Definition divide_if_possible (self : nat) : M AmoebaDivisionModel unit :=
  o <- get_agent self ;;
  if dividing_next_step o then
    (* Attempt to complete the division *)
    target <- attribute AttributeError (new_position o) ;;
    m <- get ;;
    (if is_cell_empty (grid m) target then
       child <- attribute AttributeError (new_amoeba o) ;;
       place_agent child target ;;;
       schedule_add child ;;;
       update_agent child (set_state "intact") ;;;
       update_agent self (set_state "divided")
     else
       update_agent self (set_state "stressed")) ;;;
    update_agent self (set_dividing_next_step false)
  else
    m <- get ;;
    if is_div_condition (environment m) then
      xy <- attribute TypeError (pos o) ;;
      let new_positions := get_neighborhood (grid m) xy in
      let empty_positions := List.filter (is_cell_empty (grid m)) new_positions in
      match empty_positions with
      | _ :: _ =>
          update_agent self (set_state "dividing") ;;;
          target <- zoom random with_random (choice empty_positions) ;;
          update_agent self (set_new_position target) ;;;
          uid <- next_id ;;
          child <- Amoeba_init uid ;;
          update_agent self (set_new_amoeba child) ;;;
          update_agent self (set_dividing_next_step true)
      | [] =>
          update_agent self (set_state "stressed")
      end
    else ret tt.

(** ** [Amoeba.step] *)

Definition Amoeba_step (self : nat) : M AmoebaDivisionModel unit :=
  m <- get ;;
  o <- get_agent self ;;
  (if is_encystment_condition (environment m) then
     update_agent self (set_state "encysted")
   else if is_excystment_condition (environment m) && String.eqb (state o) "encysted" then
     update_agent self (set_state "excysted")
   else ret tt) ;;;
  (* Handle division process *)
  o <- get_agent self ;;
  if String.eqb (state o) "excysted" || is_div_condition (environment m)
     || dividing_next_step o
  then divide_if_possible self
  else ret tt.

(** ** The scheduler's activation pass

    Modelled from the spec: a snapshot of the registry taken when the pass
    starts, a random rearrangement of it, then one activation per entry
    (section 4.4). *)

Definition activation_snapshot (m : AmoebaDivisionModel) : list nat :=
  agents (schedule m).

Definition activation_order (m : AmoebaDivisionModel) : list nat :=
  (shuffle (activation_snapshot m) (random m)).1.

Definition RandomActivation_step : M AmoebaDivisionModel unit :=
  m <- get ;;
  modify (with_random (shuffle (activation_snapshot m) (random m)).2) ;;;
  for_each (activation_order m) Amoeba_step ;;;
  modify (fun m => with_schedule
                     (mkRandomActivation (agents (schedule m)) (steps (schedule m) + 1)) m).

(** ** [collect_data] *)

Definition collect_data : M AmoebaDivisionModel Data :=
  m <- get ;;
  os <- map_m get_agent (agents (schedule m)) ;;
  let sts := map state os in
  ret (mkData (steps (schedule m))
         (count_state "intact" sts)
         (count_state "dividing" sts)
         (count_state "divided" sts)
         (count_state "encysted" sts)
         (count_state "excysted" sts)
         (count_state "stressed" sts)
         (water_quality (environment m))
         (temperature (environment m))
         (month (environment m))).

(** ** [AmoebaDivisionModel] *)

(** A method of the environment run on the model: it reads and writes the
    [environment] attribute and draws from numpy's generator. *)
Definition on_environment (c : Environment -> M Rng Environment) : M AmoebaDivisionModel unit :=
  fun m => match c (environment m) (np_random m) with
           | Ok (e, g) => Ok (tt, with_np_random g (with_environment e m))
           | Raise e => Raise e
           end.

Definition Model_init (w h mth : Z) (rnd np : Rng) : result (unit * AmoebaDivisionModel) :=
  match Environment_init mth np with
  | Raise e => Raise e
  | Ok (env, np1) =>
      (amoeba <- Amoeba_init 1 ;;
       x <- zoom np_random with_np_random (randint 1 w) ;;
       y <- zoom np_random with_np_random (randint 1 h) ;;
       place_agent amoeba (x, y) ;;;
       schedule_add amoeba)
        (mkModel (SingleGrid_init w h true) RandomActivation_init env [] [] 0 rnd np1)
  end.

Definition Model_step : M AmoebaDivisionModel unit :=
  RandomActivation_step ;;;
  on_environment update_conditions ;;;
  modify (fun m => with_environment (increment_month (environment m)) m) ;;;
  (* Collect and store data at the current step *)
  current_data <- collect_data ;;
  modify (fun m => with_data_collector (data_collector m ++ [current_data]) m).

(** ** [run_simulation] *)

Fixpoint run_simulation (n : nat) : M AmoebaDivisionModel unit :=
  match n with
  | O => ret tt
  | S k => Model_step ;;; run_simulation k
  end.

(** ** Reachable simulation states *)

Inductive reachable : AmoebaDivisionModel -> Prop :=
| reachable_init w h mth rnd np m :
    Model_init w h mth rnd np = Ok (tt, m) -> reachable m
| reachable_step m m' :
    reachable m -> Model_step m = Ok (tt, m') -> reachable m'.

End Simulation.

(** ** Specification predicates *)

(** The effect of the encystment / excystment branches of [Amoeba.step] on
    the activated organism. *)
Definition dormancy (e : Environment) (o : Amoeba) : Amoeba :=
  if is_encystment_condition e then set_state "encysted" o
  else if is_excystment_condition e && String.eqb (state o) "encysted"
       then set_state "excysted" o
       else o.

(** The guard in front of [divide_if_possible]. *)
Definition division_gate (e : Environment) (o : Amoeba) : bool :=
  String.eqb (state o) "excysted" || is_div_condition e || dividing_next_step o.

(** The invariant of the simulation state; it holds between ticks and
    between the activations of one tick. *)
Record wf (m : AmoebaDivisionModel) : Prop := mkWf {
  wf_nodup : NoDup (agents (schedule m));
  wf_registered : forall a, a ∈ agents (schedule m) ->
    exists o p, objects m !! a = Some o /\ pos o = Some p /\ cells (grid m) !! p = Some a;
  wf_cells : forall p a, cells (grid m) !! p = Some a ->
    a ∈ agents (schedule m) /\ exists o, objects m !! a = Some o /\ pos o = Some p;
  wf_pending : forall a o, objects m !! a = Some o -> dividing_next_step o = true ->
    a ∈ agents (schedule m) /\
    exists p c, new_position o = Some p /\ new_amoeba o = Some c /\
                (c < length (objects m))%nat /\ c ∉ agents (schedule m);
  wf_pending_inj : forall a a' o o' c,
    objects m !! a = Some o -> objects m !! a' = Some o' ->
    dividing_next_step o = true -> dividing_next_step o' = true ->
    new_amoeba o = Some c -> new_amoeba o' = Some c -> a = a';
  wf_states : forall a o, objects m !! a = Some o -> state o ∈ known_states;
  wf_env : temperature_description (environment m) ∈ known_descriptions
}.

(** What an activation leaves alone. *)
Record stable (m m' : AmoebaDivisionModel) : Prop := mkStable {
  st_environment : environment m' = environment m;
  st_np_random : np_random m' = np_random m;
  st_data : data_collector m' = data_collector m;
  st_steps : steps (schedule m') = steps (schedule m);
  st_agents : exists born, agents (schedule m') = agents (schedule m) ++ born;
  st_cells : forall p a, cells (grid m) !! p = Some a -> cells (grid m') !! p = Some a
}.

(** Single occupancy: the registry has no duplicates, every occupied cell
    holds a registered organism that records this very cell, every registered
    organism occupies its recorded cell and no other, and two registered
    organisms never share a coordinate. *)
Definition single_occupancy (m : AmoebaDivisionModel) : Prop :=
  NoDup (agents (schedule m)) /\
  (forall p a, cells (grid m) !! p = Some a ->
     a ∈ agents (schedule m) /\ exists o, objects m !! a = Some o /\ pos o = Some p) /\
  (forall a, a ∈ agents (schedule m) ->
     exists o p, objects m !! a = Some o /\ pos o = Some p /\
                 forall q, cells (grid m) !! q = Some a <-> q = p) /\
  (forall a b oa ob p, a ∈ agents (schedule m) -> b ∈ agents (schedule m) ->
     objects m !! a = Some oa -> objects m !! b = Some ob ->
     pos oa = Some p -> pos ob = Some p -> a = b).

(** The table of section 4.2 of the specification: the ranges and the
    category a month's season assigns. *)
Definition spec_table (mth : Z) (e : Environment) : Prop :=
  if in_list mth [12; 1; 2] then
    0 <= water_quality e < 50 /\ -20 <= temperature e < 10
    /\ temperature_description e = "sub-zero"
  else if in_list mth [6; 7; 8] then
    50 <= water_quality e < 100 /\ 30 <= temperature e < 60
    /\ temperature_description e = "extreme hot"
  else
    75 <= water_quality e < 100 /\ 15 <= temperature e < 25
    /\ temperature_description e = "normal".

(** The sum of the six per-state counts of a metrics record. *)
Definition counted (d : Data) : nat :=
  (d_intact d + d_dividing d + d_divided d + d_encysted d + d_excysted d + d_stressed d)%nat.

(** ** Sample runs *)

Definition sample_tape : Rng := mkRng (fun n => n) 0.

(** A tape whose first four entries are given; used to steer the two
    environment draws and the two seed-coordinate draws of the constructor. *)
Definition tape_of (a b c d : nat) : Rng :=
  mkRng (fun n => match n with
                  | O => a | 1%nat => b | 2%nat => c | _ => d
                  end) 0.

Definition after_ticks (n : nat) (w h mth : Z) : result (unit * AmoebaDivisionModel) :=
  match Model_init w h mth sample_tape sample_tape with
  | Ok (_, m) => run_simulation moore_torus n m
  | Raise e => Raise e
  end.

Definition model_of (r : result (unit * AmoebaDivisionModel)) (d : AmoebaDivisionModel) :
    AmoebaDivisionModel :=
  match r with
  | Ok (_, m) => m
  | Raise _ => d
  end.

Definition empty_model : AmoebaDivisionModel :=
  mkModel (SingleGrid_init 0 0 true) RandomActivation_init (mkEnvironment 1 0 0 "")
    [] [] 0 sample_tape sample_tape.

(** A 3 x 3 spring simulation: freshly built, and after one tick (the seed
    is dividing). *)
Definition spring0 : AmoebaDivisionModel := model_of (after_ticks 0 3 3 4) empty_model.
Definition spring1 : AmoebaDivisionModel := model_of (after_ticks 1 3 3 4) empty_model.

(** A 3 x 3 simulation started in November, freshly built and after one
    tick. *)
Definition autumn0 : AmoebaDivisionModel := model_of (after_ticks 0 3 3 11) empty_model.
Definition autumn1 : AmoebaDivisionModel := model_of (after_ticks 1 3 3 11) empty_model.

(** A 3 x 3 simulation constructed with month 13. *)
Definition late0 : AmoebaDivisionModel := model_of (after_ticks 0 3 3 13) empty_model.

(** A 2 x 2 grid with an organism on every cell, in a spring month. *)
Definition crowded : AmoebaDivisionModel :=
  mkModel
    (mkSingleGrid 2 2 true
       (<[(0, 0) := 0%nat]> (<[(0, 1) := 1%nat]> (<[(1, 0) := 2%nat]> (<[(1, 1) := 3%nat]> ∅)))))
    (mkRandomActivation [0; 1; 2; 3]%nat 5)
    (mkEnvironment 4 80 20 "normal")
    []
    [mkAmoeba 1 "intact" false (Some (0, 0)) None None;
     mkAmoeba 2 "intact" false (Some (0, 1)) None None;
     mkAmoeba 3 "intact" false (Some (1, 0)) None None;
     mkAmoeba 4 "intact" false (Some (1, 1)) None None]
    4 sample_tape sample_tape.

(** ** The rest of the module *)

(** Values stored in a portrayal dictionary; a float is [m * 2 ^ e]. *)
Inductive pyval : Type :=
| PStr (s : string)
| PInt (z : Z)
| PFloat (m e : Z).

Definition color_map : gmap string string :=
  <["intact" := "green"]> (<["encysted" := "blue"]> (<["excysted" := "lightblue"]>
  (<["divided" := "red"]> (<["stressed" := "orange"]> (<["dividing" := "yellow"]> ∅))))).

(** [agent_portrayal]. *)
Definition agent_portrayal (agent : Amoeba) : gmap string pyval :=
  let portrayal : gmap string pyval :=
    <["Shape" := PStr "circle"]> (<["Filled" := PStr "true"]> (<["r" := PFloat 1 (-1)]>
    (<["Layer" := PInt 0]> (<["w" := PInt 1]> (<["h" := PInt 1]> ∅))))) in
  <["Color" := PStr (default "grey" (color_map !! state agent))]> portrayal.

(** [reset_model]; [entered] is the integer read from the console. *)
Definition reset_model (width height : Z) (entered : Z) (rnd np : Rng) :
    result (unit * AmoebaDivisionModel) :=
  let new_month := Z.max 1 (Z.min 12 entered) in
  Model_init width height new_month rnd np.

(** ** Further specification predicates *)

(** The states an organism can be left in by its own activation. *)
Definition post_states : list string := ["encysted"; "dividing"; "divided"; "stressed"].

(** What one activation does to the activated organism, [o] before and
    [o'] after, under environment [e]. *)
Record effect (e : Environment) (o o' : Amoeba) : Prop := mkEffect {
  eff_pos : pos o' = pos o;
  eff_id : unique_id o' = unique_id o;
  eff_state : state o' ∈ post_states;
  eff_flag : dividing_next_step o' = true <-> state o' = "dividing";
  eff_commit : dividing_next_step o = true ->
    dividing_next_step o' = false /\ (state o' = "divided" \/ state o' = "stressed");
  eff_adverse : is_encystment_condition e = true -> dividing_next_step o = false ->
    state o' = "encysted";
  eff_favourable : is_encystment_condition e = false -> state o' <> "encysted"
}.

(** What one activation of [self] does to the rest of the simulation. *)
Record activated (m : AmoebaDivisionModel) (self : nat) (m' : AmoebaDivisionModel) : Prop :=
  mkActivated {
  act_self : exists o o', objects m !! self = Some o /\ objects m' !! self = Some o'
                          /\ effect (environment m) o o';
  act_registered : forall b, b <> self -> b ∈ agents (schedule m) ->
    objects m' !! b = objects m !! b;
  act_others : forall b ob', b <> self -> objects m' !! b = Some ob' ->
    objects m !! b = Some ob' \/ (state ob' = "intact" /\ dividing_next_step ob' = false);
  act_born : exists born,
    agents (schedule m') = agents (schedule m) ++ born /\ (length born <= 1)%nat /\
    size (cells (grid m')) = (size (cells (grid m)) + length born)%nat /\
    forall c, c ∈ born ->
      exists oc, objects m' !! c = Some oc /\ state oc = "intact"
                 /\ dividing_next_step oc = false /\ is_Some (pos oc)
}.

(** No organism is excysted, and a division is pending exactly for the
    organisms in state dividing. *)
Definition tidy (m : AmoebaDivisionModel) : Prop :=
  forall a o, objects m !! a = Some o ->
    state o <> "excysted" /\ (dividing_next_step o = true <-> state o = "dividing").

(** What one pass over the registry (and hence one tick) does to the
    organisms registered when it starts and to those born during it. *)
Record visited (m m' : AmoebaDivisionModel) : Prop := mkVisited {
  vis_each : forall a, a ∈ agents (schedule m) ->
    exists o o', objects m !! a = Some o /\ objects m' !! a = Some o'
                 /\ effect (environment m) o o';
  vis_born : exists born,
    agents (schedule m') = agents (schedule m) ++ born /\
    (length born <= length (agents (schedule m)))%nat /\
    size (cells (grid m')) = (size (cells (grid m)) + length born)%nat /\
    forall c, c ∈ born ->
      exists oc, objects m' !! c = Some oc /\ state oc = "intact"
                 /\ dividing_next_step oc = false /\ is_Some (pos oc);
  vis_tidy : tidy m -> tidy m'
}.

(** The organisms of a list are activated one after the other, each by one
    call of [Amoeba.step] that returns, and nothing else happens. *)
Inductive activates (nbh : SingleGrid -> position -> list position) :
    list nat -> AmoebaDivisionModel -> AmoebaDivisionModel -> Prop :=
| activates_nil m : activates nbh [] m m
| activates_cons a l m m1 m2 :
    Amoeba_step nbh a m = Ok (tt, m1) -> activates nbh l m1 m2 ->
    activates nbh (a :: l) m m2.

(** The tick from [m] to [m'] activates exactly the organisms of [order],
    in that order: the store, the registry and the grid it leaves are those
    left by these activations, started from [m] with the generator advanced
    by the shuffle. *)
Definition tick_activates (nbh : SingleGrid -> position -> list position)
    (m m' : AmoebaDivisionModel) (order : list nat) : Prop :=
  exists m1,
    activates nbh order
      (with_random (shuffle (activation_snapshot m) (random m)).2 m) m1 /\
    objects m' = objects m1 /\ agents (schedule m') = agents (schedule m1) /\
    grid m' = grid m1.

(** The month [n] increments after month [mth] of a twelve-month year. *)
Definition month_after (mth : Z) (n : nat) : Z := (mth - 1 + Z.of_nat n) mod 12 + 1.

(** * Properties *)

(** ** Running monadic code *)

Lemma bind_Ok {S A B} (c : M S A) (k : A -> M S B) s a s' :
  c s = Ok (a, s') -> bind c k s = k a s'.
Proof. intros H. unfold bind. now rewrite H. Qed.

Lemma bind_assoc {S A B C} (c : M S A) (k1 : A -> M S B) (k2 : B -> M S C) s :
  bind (bind c k1) k2 s = bind c (fun a => bind (k1 a) k2) s.
Proof. unfold bind. destruct (c s) as [[a s']|e]; reflexivity. Qed.

Lemma bind_ret {S A B} (a : A) (k : A -> M S B) s : bind (ret a) k s = k a s.
Proof. reflexivity. Qed.

Lemma bind_get {S B} (k : S -> M S B) s : bind get k s = k s s.
Proof. reflexivity. Qed.

Lemma bind_modify {S B} (f : S -> S) (k : unit -> M S B) s :
  bind (modify f) k s = k tt (f s).
Proof. reflexivity. Qed.

Lemma zoom_Ok {S T A} (proj : S -> T) upd (c : M T A) s a t :
  c (proj s) = Ok (a, t) -> zoom proj upd c s = Ok (a, upd t s).
Proof. intros H. unfold zoom. now rewrite H. Qed.

Lemma get_agent_Ok m a o : objects m !! a = Some o -> get_agent a m = Ok (o, m).
Proof. intros H. unfold get_agent. now rewrite H. Qed.

Lemma update_agent_Ok m a f o :
  objects m !! a = Some o ->
  update_agent a f m = Ok (tt, with_objects (<[a := f o]> (objects m)) m).
Proof. intros H. unfold update_agent. now rewrite H. Qed.

Lemma update_agent_run {A} m a f o (k : unit -> M AmoebaDivisionModel A) :
  objects m !! a = Some o ->
  bind (update_agent a f) k m = k tt (with_objects (<[a := f o]> (objects m)) m).
Proof. intros H. apply bind_Ok. now apply update_agent_Ok. Qed.

Lemma bind_next_id {B} (k : Z -> M AmoebaDivisionModel B) s :
  bind next_id k s = k (current_id s + 1) (with_current_id (current_id s + 1) s).
Proof. reflexivity. Qed.

Lemma bind_Amoeba_init {B} uid (k : nat -> M AmoebaDivisionModel B) s :
  bind (Amoeba_init uid) k s =
  k (length (objects s))
    (with_objects (objects s ++ [mkAmoeba uid "intact" false None None None]) s).
Proof. reflexivity. Qed.

Lemma choice_Ok {A} (l : list A) g x :
  l !! (tape g (cursor g) mod length l)%nat = Some x ->
  choice l g = Ok (x, mkRng (tape g) (S (cursor g))).
Proof. intros H. unfold choice, draw, bind. now rewrite H. Qed.

Lemma randint_Ok low high g :
  low < high ->
  exists v, randint low high g = Ok (v, mkRng (tape g) (S (cursor g)))
            /\ v = low + Z.of_nat (tape g (cursor g)) mod (high - low)
            /\ low <= v < high.
Proof.
  intros H. unfold randint. destruct (Z.ltb_spec low high); [|lia].
  eexists. split; [reflexivity|]. split; [reflexivity|].
  pose proof (Z.mod_pos_bound (Z.of_nat (tape g (cursor g))) (high - low)). lia.
Qed.

Lemma randint_empty low high g : high <= low -> randint low high g = Raise ValueError.
Proof. intros H. unfold randint. destruct (Z.ltb_spec low high); [lia|reflexivity]. Qed.

(** Side conditions on store lengths, and normal forms of store lookups. *)
Ltac len :=
  rewrite ?length_insert, ?length_app, ?length_insert; cbn [length];
  repeat match goal with H : _ !! _ = Some _ |- _ => apply lookup_lt_Some in H end;
  lia.

Ltac lk :=
  repeat first
    [ rewrite list_insert_insert_eq
    | rewrite insert_app_l by len
    | rewrite length_insert
    | rewrite lookup_app_l by len
    | rewrite list_lookup_insert_eq by len
    | rewrite list_lookup_insert_ne by congruence ].

Ltac proj :=
  cbn [grid schedule environment data_collector objects current_id random np_random
       with_grid with_schedule with_environment with_data_collector with_objects
       with_current_id with_random with_np_random].

Ltac proj_all :=
  cbn [grid schedule environment data_collector objects current_id random np_random
       with_grid with_schedule with_environment with_data_collector with_objects
       with_current_id with_random with_np_random agents steps] in *.

Ltac mrun :=
  repeat (first [ rewrite bind_assoc | rewrite bind_ret | rewrite bind_get
                | rewrite bind_modify | rewrite bind_next_id | rewrite bind_Amoeba_init
                | erewrite update_agent_run by (proj; lk; first [eassumption | reflexivity])
                | erewrite update_agent_Ok by (proj; lk; first [eassumption | reflexivity]) ];
          cbv beta; proj).

(** ** Environment *)

Lemma known_description_cases d :
  d ∈ known_descriptions -> d = "sub-zero" \/ d = "extreme hot" \/ d = "normal".
Proof.
  unfold known_descriptions. rewrite !elem_of_cons, elem_of_nil. tauto.
Qed.

Lemma update_conditions_spec e g :
  exists e', update_conditions e g = Ok (e', mkRng (tape g) (S (S (cursor g))))
             /\ month e' = month e /\ spec_table (month e) e'.
Proof.
  unfold update_conditions, adjust_water_quality, adjust_temperature, spec_table.
  destruct (in_list (month e) [12; 1; 2]) eqn:Hw.
  - destruct (randint_Ok 0 50 g) as (w & Hr & _ & Hb); [lia|].
    destruct (randint_Ok (-20) 10 (mkRng (tape g) (S (cursor g)))) as (t & Hr' & _ & Hb'); [lia|].
    eexists. split.
    { erewrite bind_Ok by (erewrite bind_Ok by exact Hr; reflexivity).
      cbn [month]. rewrite Hw. erewrite bind_Ok by exact Hr'. reflexivity. }
    cbn. auto.
  - destruct (in_list (month e) [6; 7; 8]) eqn:Hs.
    + destruct (randint_Ok 50 100 g) as (w & Hr & _ & Hb); [lia|].
      destruct (randint_Ok 30 60 (mkRng (tape g) (S (cursor g)))) as (t & Hr' & _ & Hb'); [lia|].
      eexists. split.
      { erewrite bind_Ok by (erewrite bind_Ok by exact Hr; reflexivity).
        cbn [month]. rewrite Hw, Hs. erewrite bind_Ok by exact Hr'. reflexivity. }
      cbn. auto.
    + destruct (randint_Ok 75 100 g) as (w & Hr & _ & Hb); [lia|].
      destruct (randint_Ok 15 25 (mkRng (tape g) (S (cursor g)))) as (t & Hr' & _ & Hb'); [lia|].
      eexists. split.
      { erewrite bind_Ok by (erewrite bind_Ok by exact Hr; reflexivity).
        cbn [month]. rewrite Hw, Hs. erewrite bind_Ok by exact Hr'. reflexivity. }
      cbn. auto.
Qed.

Lemma spec_table_known mth e : spec_table mth e -> temperature_description e ∈ known_descriptions.
Proof.
  unfold spec_table, known_descriptions.
  destruct (in_list mth [12; 1; 2]); [|destruct (in_list mth [6; 7; 8])];
    intros (_ & _ & ->); rewrite !elem_of_cons; auto.
Qed.

Lemma encystment_negates_division e :
  temperature_description e ∈ known_descriptions ->
  is_encystment_condition e = negb (is_div_condition e).
Proof.
  intros H. apply known_description_cases in H.
  unfold is_encystment_condition, is_div_condition.
  destruct (Z.ltb_spec (water_quality e) 50), (Z.leb_spec 50 (water_quality e)); try lia;
    destruct H as [-> | [-> | ->]]; reflexivity.
Qed.

(** C9 (month cyclicity).  From any month in 1..12, one [increment_month]
    yields a month in 1..12 again, and twelve of them return to the starting
    month; the drawn conditions are not touched. *)
Theorem month_cyclicity (e : Environment) :
  1 <= month e <= 12 ->
  1 <= month (increment_month e) <= 12 /\
  Nat.iter 12 increment_month e = e.
Proof.
  intros H. destruct e as [mth w t d]. cbn [month] in H.
  assert (Hc : mth = 1 \/ mth = 2 \/ mth = 3 \/ mth = 4 \/ mth = 5 \/ mth = 6 \/ mth = 7
               \/ mth = 8 \/ mth = 9 \/ mth = 10 \/ mth = 11 \/ mth = 12) by lia.
  repeat (destruct Hc as [-> | Hc]); try subst mth;
    (split; [cbn; lia | reflexivity]).
Qed.

(** C10 (condition predicates).  Whatever the month and the generator,
    [update_conditions] returns an environment whose temperature description
    is one of the three literals, on which the excystment and the division
    predicates agree and the encystment predicate is the negation of the
    division predicate, so exactly one of the two holds; the month increment
    that follows in a tick changes neither predicate. *)
Theorem condition_predicates (e : Environment) (g : Rng) :
  exists e' g',
    update_conditions e g = Ok (e', g') /\
    (temperature_description e' = "sub-zero"
     \/ temperature_description e' = "extreme hot"
     \/ temperature_description e' = "normal") /\
    is_excystment_condition e' = is_div_condition e' /\
    is_encystment_condition e' = negb (is_div_condition e') /\
    xorb (is_encystment_condition e') (is_div_condition e') = true /\
    is_encystment_condition (increment_month e') = is_encystment_condition e' /\
    is_div_condition (increment_month e') = is_div_condition e'.
Proof.
  destruct (update_conditions_spec e g) as (e' & Hrun & _ & Htab).
  pose proof (spec_table_known _ _ Htab) as Hk.
  exists e', (mkRng (tape g) (S (S (cursor g)))).
  split; [exact Hrun|]. split; [now apply known_description_cases|].
  split; [reflexivity|].
  pose proof (encystment_negates_division e' Hk) as Hn.
  split; [exact Hn|]. split; [rewrite Hn; now destruct (is_div_condition e')|].
  split; reflexivity.
Qed.

(** ** One activation *)

Section Activation.

Variable nbh : SingleGrid -> position -> list position.

Lemma with_objects_id m : with_objects (objects m) m = m.
Proof. now destruct m. Qed.

(** The dormancy branches followed by the gate. *)
Lemma Amoeba_step_unfold m self o :
  objects m !! self = Some o ->
  Amoeba_step nbh self m =
    let m1 := with_objects (<[self := dormancy (environment m) o]> (objects m)) m in
    if division_gate (environment m) (dormancy (environment m) o)
    then divide_if_possible nbh self m1
    else Ok (tt, m1).
Proof.
  intros Ho. unfold Amoeba_step, dormancy, division_gate. mrun.
  rewrite (bind_Ok _ _ _ _ _ (get_agent_Ok _ _ _ Ho)).
  destruct (is_encystment_condition (environment m)).
  - mrun. erewrite bind_Ok by (apply get_agent_Ok; proj; lk; reflexivity).
    cbv zeta. now destruct (_ || _).
  - destruct (is_excystment_condition (environment m) && String.eqb (state o) "encysted").
    + mrun. erewrite bind_Ok by (apply get_agent_Ok; proj; lk; reflexivity).
      cbv zeta. now destruct (_ || _).
    + mrun. rewrite (bind_Ok _ _ _ _ _ (get_agent_Ok _ _ _ Ho)).
      cbv zeta. rewrite list_insert_id by exact Ho. rewrite with_objects_id.
      now destruct (_ || _).
Qed.

Lemma commit_ok m self o target child oc :
  objects m !! self = Some o -> dividing_next_step o = true ->
  new_position o = Some target -> is_cell_empty (grid m) target = true ->
  new_amoeba o = Some child -> objects m !! child = Some oc -> child <> self ->
  divide_if_possible nbh self m =
    Ok (tt, mkModel
              (mkSingleGrid (width (grid m)) (height (grid m)) (torus (grid m))
                 (<[target := child]> (cells (grid m))))
              (mkRandomActivation (agents (schedule m) ++ [child]) (steps (schedule m)))
              (environment m) (data_collector m)
              (<[self := set_dividing_next_step false (set_state "divided" o)]>
                 (<[child := set_state "intact" (set_pos target oc)]> (objects m)))
              (current_id m) (random m) (np_random m)).
Proof.
  intros Ho Hd Hp He Hc Hoc Hne.
  unfold divide_if_possible.
  rewrite (bind_Ok _ _ _ _ _ (get_agent_Ok _ _ _ Ho)).
  rewrite Hd, Hp. cbn [attribute]. mrun. rewrite He, Hc. cbn [attribute]. mrun.
  unfold place_agent, schedule_add. mrun. rewrite He. mrun.
  destruct m; cbn. lk. reflexivity.
Qed.

Lemma commit_fail m self o target :
  objects m !! self = Some o -> dividing_next_step o = true ->
  new_position o = Some target -> is_cell_empty (grid m) target = false ->
  divide_if_possible nbh self m =
    Ok (tt, with_objects
              (<[self := set_dividing_next_step false (set_state "stressed" o)]> (objects m)) m).
Proof.
  intros Ho Hd Hp He.
  unfold divide_if_possible.
  rewrite (bind_Ok _ _ _ _ _ (get_agent_Ok _ _ _ Ho)).
  rewrite Hd, Hp. cbn [attribute]. mrun. rewrite He. mrun.
  destruct m; cbn. lk. reflexivity.
Qed.

Lemma initiate_blocked m self o xy :
  objects m !! self = Some o -> dividing_next_step o = false ->
  is_div_condition (environment m) = true -> pos o = Some xy ->
  List.filter (is_cell_empty (grid m)) (nbh (grid m) xy) = [] ->
  divide_if_possible nbh self m =
    Ok (tt, with_objects (<[self := set_state "stressed" o]> (objects m)) m).
Proof.
  intros Ho Hd Hdiv Hp He.
  unfold divide_if_possible.
  rewrite (bind_Ok _ _ _ _ _ (get_agent_Ok _ _ _ Ho)).
  rewrite Hd. mrun. rewrite Hdiv, Hp. cbn [attribute]. mrun. rewrite He. mrun.
  reflexivity.
Qed.

Lemma initiate_ok m self o xy q qs :
  objects m !! self = Some o -> dividing_next_step o = false ->
  is_div_condition (environment m) = true -> pos o = Some xy ->
  List.filter (is_cell_empty (grid m)) (nbh (grid m) xy) = q :: qs ->
  exists target,
    (q :: qs) !! (tape (random m) (cursor (random m)) mod length (q :: qs))%nat = Some target /\
    divide_if_possible nbh self m =
      Ok (tt, mkModel (grid m) (schedule m) (environment m) (data_collector m)
                (<[self := mkAmoeba (unique_id o) "dividing" true (pos o) (Some target)
                             (Some (length (objects m)))]> (objects m)
                 ++ [mkAmoeba (current_id m + 1) "intact" false None None None])
                (current_id m + 1)
                (mkRng (tape (random m)) (S (cursor (random m)))) (np_random m)).
Proof.
  intros Ho Hd Hdiv Hp He.
  destruct (lookup_lt_is_Some_2 (q :: qs)
              (tape (random m) (cursor (random m)) mod length (q :: qs))%nat) as [target Ht].
  { apply Nat.mod_upper_bound. cbn. lia. }
  exists target. split; [exact Ht|].
  unfold divide_if_possible.
  rewrite (bind_Ok _ _ _ _ _ (get_agent_Ok _ _ _ Ho)).
  rewrite Hd. mrun. rewrite Hdiv, Hp. cbn [attribute]. mrun. rewrite He. mrun.
  erewrite bind_Ok; [| apply zoom_Ok; apply choice_Ok; proj; exact Ht].
  mrun. lk. unfold set_dividing_next_step, set_new_amoeba, set_new_position, set_state.
  cbn [unique_id state dividing_next_step pos new_position new_amoeba].
  unfold with_objects, with_current_id, with_random; proj. rewrite Hp. reflexivity.
Qed.

Lemma divide_idle m self o :
  objects m !! self = Some o -> dividing_next_step o = false ->
  is_div_condition (environment m) = false ->
  divide_if_possible nbh self m = Ok (tt, m).
Proof.
  intros Ho Hd Hdiv. unfold divide_if_possible.
  rewrite (bind_Ok _ _ _ _ _ (get_agent_Ok _ _ _ Ho)).
  rewrite Hd. mrun. rewrite Hdiv. reflexivity.
Qed.

End Activation.

(** ** Preservation of the invariant *)

Lemma known_state_cases s :
  s = "intact" \/ s = "dividing" \/ s = "divided" \/ s = "encysted" \/ s = "excysted"
  \/ s = "stressed" -> s ∈ known_states.
Proof. unfold known_states. rewrite !elem_of_cons. tauto. Qed.

Lemma is_cell_empty_true g p : is_cell_empty g p = true <-> cells g !! p = None.
Proof. unfold is_cell_empty. destruct (cells g !! p); split; congruence. Qed.

Lemma is_cell_empty_false g p : is_cell_empty g p = false <-> is_Some (cells g !! p).
Proof.
  unfold is_cell_empty. destruct (cells g !! p); split; try congruence; eauto.
  intros [? ?]; congruence.
Qed.

(** Replacing the store by one whose objects keep their cell, carry a known
    state and hold no new pending division. *)
Lemma wf_benign m objs' :
  wf m -> length objs' = length (objects m) ->
  (forall b ob', objs' !! b = Some ob' ->
     exists ob, objects m !! b = Some ob /\ pos ob' = pos ob /\ state ob' ∈ known_states /\
       (dividing_next_step ob' = true ->
        dividing_next_step ob = true /\ new_position ob' = new_position ob
        /\ new_amoeba ob' = new_amoeba ob)) ->
  wf (with_objects objs' m).
Proof.
  intros [Hn Hr Hc Hp Hi Hs He] Hlen Hrel. constructor; proj.
  - exact Hn.
  - intros a Ha. destruct (Hr a Ha) as (o & p & Ho & Hpos & Hcell).
    destruct (lookup_lt_is_Some_2 objs' a) as [o' Ho'].
    { rewrite Hlen. eapply lookup_lt_Some; eauto. }
    destruct (Hrel a o' Ho') as (o2 & Ho2 & Hpp & _).
    exists o', p. split; [exact Ho'|]. split; [congruence|exact Hcell].
  - intros p a Hcell. destruct (Hc p a Hcell) as (Ha & o & Ho & Hpos).
    split; [exact Ha|].
    destruct (lookup_lt_is_Some_2 objs' a) as [o' Ho'].
    { rewrite Hlen. eapply lookup_lt_Some; eauto. }
    destruct (Hrel a o' Ho') as (o2 & Ho2 & Hpp & _).
    exists o'. split; [exact Ho'|congruence].
  - intros a o' Ho' Hd. destruct (Hrel a o' Ho') as (o & Ho & _ & _ & Hf).
    destruct (Hf Hd) as (Hd0 & Hnp & Hna).
    destruct (Hp a o Ho Hd0) as (Ha & p & c & ? & ? & ? & ?).
    split; [exact Ha|]. exists p, c. rewrite Hnp, Hna, Hlen. auto.
  - intros a a' o1 o2 c H1 H2 Hd1 Hd2 Hc1 Hc2.
    destruct (Hrel a o1 H1) as (o1' & Ho1 & _ & _ & Hf1).
    destruct (Hrel a' o2 H2) as (o2' & Ho2 & _ & _ & Hf2).
    destruct (Hf1 Hd1) as (? & _ & Hna1). destruct (Hf2 Hd2) as (? & _ & Hna2).
    eapply (Hi a a' o1' o2' c); eauto; congruence.
  - intros a o' Ho'. destruct (Hrel a o' Ho') as (_ & _ & _ & Hst & _). exact Hst.
  - exact He.
Qed.

Lemma wf_update m a o o' :
  wf m -> objects m !! a = Some o ->
  pos o' = pos o -> state o' ∈ known_states ->
  (dividing_next_step o' = true ->
   dividing_next_step o = true /\ new_position o' = new_position o
   /\ new_amoeba o' = new_amoeba o) ->
  wf (with_objects (<[a := o']> (objects m)) m).
Proof.
  intros Hwf Ho Hpos Hst Hf. apply wf_benign; [exact Hwf|apply length_insert|].
  intros b ob' Hb. apply list_lookup_insert_Some in Hb as [(<- & <- & _) | (Hne & Hb)].
  - exists o. auto.
  - exists ob'. split; [exact Hb|]. split; [reflexivity|].
    split; [eapply wf_states; eauto|auto].
Qed.

Lemma wf_dormancy m a o :
  wf m -> objects m !! a = Some o ->
  wf (with_objects (<[a := dormancy (environment m) o]> (objects m)) m).
Proof.
  intros Hwf Ho. apply (wf_update m a o); auto.
  - unfold dormancy. repeat case_match; reflexivity.
  - unfold dormancy. repeat case_match; cbn [state set_state];
      [apply known_state_cases; tauto | apply known_state_cases; tauto
      | eapply wf_states; eauto].
  - unfold dormancy. repeat case_match; cbn; auto.
Qed.

Lemma stable_refl m : stable m m.
Proof. constructor; auto. exists []. now rewrite app_nil_r. Qed.

Lemma insert_keeps_occupants (c : gmap position nat) target child p a :
  c !! target = None -> c !! p = Some a -> <[target := child]> c !! p = Some a.
Proof.
  intros Hemp Hp. rewrite lookup_insert_ne; [exact Hp|]. intros ->. congruence.
Qed.

Lemma stable_trans m1 m2 m3 : stable m1 m2 -> stable m2 m3 -> stable m1 m3.
Proof.
  intros [? ? ? ? [b1 Hb1] Hc1] [? ? ? ? [b2 Hb2] Hc2]. constructor; try congruence.
  - exists (b1 ++ b2). rewrite Hb2, Hb1. now rewrite app_assoc.
  - auto.
Qed.

Lemma stable_with_objects m objs' : stable m (with_objects objs' m).
Proof. constructor; proj; auto. exists []. now rewrite app_nil_r. Qed.

Lemma stable_elem m m' a : stable m m' -> a ∈ agents (schedule m) -> a ∈ agents (schedule m').
Proof. intros [_ _ _ _ [b Hb] _] Ha. rewrite Hb. apply elem_of_app. now left. Qed.

(** The committed division: the child enters the grid and the registry. *)
Lemma wf_commit m self o target child oc :
  wf m -> objects m !! self = Some o -> dividing_next_step o = true ->
  new_position o = Some target -> is_cell_empty (grid m) target = true ->
  new_amoeba o = Some child -> objects m !! child = Some oc ->
  wf (mkModel
        (mkSingleGrid (width (grid m)) (height (grid m)) (torus (grid m))
           (<[target := child]> (cells (grid m))))
        (mkRandomActivation (agents (schedule m) ++ [child]) (steps (schedule m)))
        (environment m) (data_collector m)
        (<[self := set_dividing_next_step false (set_state "divided" o)]>
           (<[child := set_state "intact" (set_pos target oc)]> (objects m)))
        (current_id m) (random m) (np_random m)).
Proof.
  intros Hwf Ho Hd Hnp Hemp Hna Hoc.
  pose proof Hwf as [Hn Hr Hc Hp Hi Hs He].
  apply is_cell_empty_true in Hemp.
  destruct (Hp self o Ho Hd) as (Hself & p0 & c0 & Hp0 & Hc0 & Hlt & Hfresh).
  assert (c0 = child) by congruence. subst c0.
  assert (Hne : child <> self) by (intros ->; contradiction).
  assert (Hflag : dividing_next_step oc = false).
  { destruct (dividing_next_step oc) eqn:E; [|reflexivity].
    destruct (Hp child oc Hoc E) as (Hin & _). contradiction. }
  assert (Hlook : forall b ob',
            <[self := set_dividing_next_step false (set_state "divided" o)]>
              (<[child := set_state "intact" (set_pos target oc)]> (objects m)) !! b = Some ob' ->
            (b = self /\ ob' = set_dividing_next_step false (set_state "divided" o))
            \/ (b = child /\ ob' = set_state "intact" (set_pos target oc))
            \/ (b <> self /\ b <> child /\ objects m !! b = Some ob')).
  { intros b ob' Hb.
    apply list_lookup_insert_Some in Hb as [(<- & <- & _) | (Hn1 & Hb)]; [auto|].
    apply list_lookup_insert_Some in Hb as [(<- & <- & _) | (Hn2 & Hb)]; [auto|].
    right; right; auto. }
  constructor; cbn [grid schedule objects environment agents cells].
  - apply NoDup_app. split; [exact Hn|]. split; [|apply NoDup_singleton].
    intros x Hx Hx'. apply list_elem_of_singleton in Hx'. subst x. contradiction.
  - intros a Ha. apply elem_of_app in Ha as [Ha | Ha].
    + destruct (Hr a Ha) as (oa & p & Hoa & Hpos & Hcell).
      assert (a <> child) by (intros ->; contradiction).
      assert (p <> target) by (intros ->; congruence).
      destruct (decide (a = self)) as [-> | Hns].
      * exists (set_dividing_next_step false (set_state "divided" o)), p.
        split; [lk; reflexivity|]. split; [cbn; congruence|].
        rewrite lookup_insert_ne by congruence. exact Hcell.
      * exists oa, p. split; [lk; exact Hoa|]. split; [exact Hpos|].
        rewrite lookup_insert_ne by congruence. exact Hcell.
    + apply list_elem_of_singleton in Ha. subst a.
      exists (set_state "intact" (set_pos target oc)), target.
      split; [lk; reflexivity|]. split; [reflexivity|]. apply lookup_insert_eq.
  - intros p a Hcell. apply lookup_insert_Some in Hcell as [(<- & <-) | (Hnp' & Hcell)].
    + split; [apply elem_of_app; right; apply list_elem_of_singleton; reflexivity|].
      exists (set_state "intact" (set_pos target oc)). split; [lk; reflexivity|reflexivity].
    + destruct (Hc p a Hcell) as (Ha & oa & Hoa & Hpos).
      split; [apply elem_of_app; now left|].
      assert (a <> child) by (intros ->; contradiction).
      destruct (decide (a = self)) as [-> | Hns].
      * exists (set_dividing_next_step false (set_state "divided" o)).
        split; [lk; reflexivity|]. cbn. congruence.
      * exists oa. split; [lk; exact Hoa|exact Hpos].
  - intros a oa Hoa Hda. rewrite length_insert, length_insert.
    destruct (Hlook a oa Hoa) as [(-> & ->) | [(-> & ->) | (Hn1 & Hn2 & Hold)]].
    + discriminate Hda.
    + cbn in Hda. congruence.
    + destruct (Hp a oa Hold Hda) as (Ha & p & c & Hpp & Hcc & Hclt & Hcfresh).
      split; [apply elem_of_app; now left|]. exists p, c.
      split; [exact Hpp|]. split; [exact Hcc|]. split; [exact Hclt|].
      apply not_elem_of_app. split; [exact Hcfresh|].
      intros Hin. apply list_elem_of_singleton in Hin. subst c.
      apply Hn1. eapply (Hi a self oa o child); eauto.
  - intros a a' o1 o2 c H1 H2 Hd1 Hd2 Hc1 Hc2.
    destruct (Hlook a o1 H1) as [(-> & ->) | [(-> & ->) | (_ & _ & Hold1)]];
      [discriminate Hd1 | cbn in Hd1; congruence |].
    destruct (Hlook a' o2 H2) as [(-> & ->) | [(-> & ->) | (_ & _ & Hold2)]];
      [discriminate Hd2 | cbn in Hd2; congruence |].
    eapply (Hi a a' o1 o2 c); eauto.
  - intros a oa Hoa.
    destruct (Hlook a oa Hoa) as [(-> & ->) | [(-> & ->) | (_ & _ & Hold)]].
    + apply known_state_cases. cbn. tauto.
    + apply known_state_cases. cbn. tauto.
    + eapply Hs; eauto.
  - exact He.
Qed.

(** The initiated division: the parent records a target and a fresh,
    unplaced and unregistered child. *)
Lemma wf_initiate m self o target uid cid rnd :
  wf m -> self ∈ agents (schedule m) -> objects m !! self = Some o ->
  wf (mkModel (grid m) (schedule m) (environment m) (data_collector m)
        (<[self := mkAmoeba (unique_id o) "dividing" true (pos o) (Some target)
                     (Some (length (objects m)))]> (objects m)
         ++ [mkAmoeba uid "intact" false None None None])
        cid rnd (np_random m)).
Proof.
  intros Hwf Hself Ho.
  pose proof Hwf as [Hn Hr Hc Hp Hi Hs He].
  assert (Hreg : forall a, a ∈ agents (schedule m) -> (a < length (objects m))%nat).
  { intros a Ha. destruct (Hr a Ha) as (oa & _ & Hoa & _). eapply lookup_lt_Some; eauto. }
  assert (Hlook : forall b ob',
            (<[self := mkAmoeba (unique_id o) "dividing" true (pos o) (Some target)
                         (Some (length (objects m)))]> (objects m)
             ++ [mkAmoeba uid "intact" false None None None]) !! b = Some ob' ->
            (b = self /\ ob' = mkAmoeba (unique_id o) "dividing" true (pos o) (Some target)
                                 (Some (length (objects m))))
            \/ (b = length (objects m) /\ ob' = mkAmoeba uid "intact" false None None None)
            \/ (b <> self /\ objects m !! b = Some ob')).
  { intros b ob' Hb. apply lookup_snoc_Some in Hb as [(_ & Hb) | (Hb & <-)].
    - apply list_lookup_insert_Some in Hb as [(<- & <- & _) | (Hn1 & Hb)]; auto.
    - rewrite length_insert in Hb. auto. }
  constructor; cbn [grid schedule objects environment agents cells].
  - exact Hn.
  - intros a Ha. destruct (Hr a Ha) as (oa & p & Hoa & Hpos & Hcell).
    destruct (decide (a = self)) as [-> | Hns].
    + eexists _, p. split; [lk; reflexivity|]. split; [cbn; congruence|exact Hcell].
    + exists oa, p. split; [lk; exact Hoa|]. auto.
  - intros p a Hcell. destruct (Hc p a Hcell) as (Ha & oa & Hoa & Hpos).
    split; [exact Ha|].
    destruct (decide (a = self)) as [-> | Hns].
    + eexists. split; [lk; reflexivity|]. cbn. congruence.
    + exists oa. split; [lk; exact Hoa|exact Hpos].
  - intros a oa Hoa Hda. rewrite length_app, length_insert. cbn [length].
    destruct (Hlook a oa Hoa) as [(-> & ->) | [(-> & ->) | (Hn1 & Hold)]].
    + split; [exact Hself|]. exists target, (length (objects m)).
      split; [reflexivity|]. split; [reflexivity|]. split; [lia|].
      intros Hin. apply Hreg in Hin. lia.
    + discriminate Hda.
    + destruct (Hp a oa Hold Hda) as (Ha & p & c & Hpp & Hcc & Hclt & Hcfresh).
      split; [exact Ha|]. exists p, c. repeat split; auto. lia.
  - intros a a' o1 o2 c H1 H2 Hd1 Hd2 Hc1 Hc2.
    destruct (Hlook a o1 H1) as [(-> & ->) | [(-> & ->) | (Hn1 & Hold1)]];
      destruct (Hlook a' o2 H2) as [(-> & ->) | [(-> & ->) | (Hn2 & Hold2)]];
      try reflexivity; try discriminate.
    + cbn in Hc1. injection Hc1 as <-.
      destruct (Hp a' o2 Hold2 Hd2) as (_ & p & c & _ & Hcc & Hclt & _).
      rewrite Hc2 in Hcc. injection Hcc as <-. lia.
    + cbn in Hc2. injection Hc2 as <-.
      destruct (Hp a o1 Hold1 Hd1) as (_ & p & c & _ & Hcc & Hclt & _).
      rewrite Hc1 in Hcc. injection Hcc as <-. lia.
    + eapply (Hi a a' o1 o2 c); eauto.
  - intros a oa Hoa.
    destruct (Hlook a oa Hoa) as [(-> & ->) | [(-> & ->) | (_ & Hold)]].
    + apply known_state_cases. cbn. tauto.
    + apply known_state_cases. cbn. tauto.
    + eapply Hs; eauto.
  - exact He.
Qed.

Lemma dormancy_pos e o : pos (dormancy e o) = pos o.
Proof. unfold dormancy. repeat case_match; reflexivity. Qed.

Lemma dormancy_dividing e o : dividing_next_step (dormancy e o) = dividing_next_step o.
Proof. unfold dormancy. repeat case_match; reflexivity. Qed.

Lemma dormancy_new_position e o : new_position (dormancy e o) = new_position o.
Proof. unfold dormancy. repeat case_match; reflexivity. Qed.

Lemma dormancy_new_amoeba e o : new_amoeba (dormancy e o) = new_amoeba o.
Proof. unfold dormancy. repeat case_match; reflexivity. Qed.

Section Ticks.

Variable nbh : SingleGrid -> position -> list position.

(** Every activation of a registered organism returns, keeps the invariant
    and leaves environment, metrics log and earlier registrations alone. *)
Lemma Amoeba_step_wf m self :
  wf m -> self ∈ agents (schedule m) ->
  exists m', Amoeba_step nbh self m = Ok (tt, m') /\ wf m' /\ stable m m'.
Proof.
  intros Hwf Hself.
  destruct (wf_registered m Hwf self Hself) as (o & p & Ho & Hpos & Hcell).
  rewrite (Amoeba_step_unfold nbh m self o Ho). cbv zeta.
  set (o1 := dormancy (environment m) o).
  set (m1 := with_objects (<[self := o1]> (objects m)) m).
  assert (Hwf1 : wf m1) by (apply wf_dormancy; assumption).
  assert (Hst1 : stable m m1) by apply stable_with_objects.
  assert (Ho1 : objects m1 !! self = Some o1) by (subst m1; proj; lk; reflexivity).
  assert (Hself1 : self ∈ agents (schedule m1)) by exact Hself.
  assert (Hpos1 : pos o1 = Some p) by (subst o1; now rewrite dormancy_pos).
  change (environment m) with (environment m1).
  clearbody m1 o1. clear Ho Hpos Hcell Hwf Hself.
  destruct (division_gate (environment m1) o1); [|eauto].
  destruct (dividing_next_step o1) eqn:Hd.
  - destruct (wf_pending m1 Hwf1 self o1 Ho1 Hd) as (_ & target & child & Hnp & Hna & Hlt & Hfresh).
    destruct (lookup_lt_is_Some_2 _ _ Hlt) as [oc Hoc].
    destruct (is_cell_empty (grid m1) target) eqn:Hemp.
    + assert (Hne : child <> self) by (intros ->; contradiction).
      rewrite (commit_ok nbh m1 self o1 target child oc) by assumption.
      eexists. split; [reflexivity|]. split.
      * now apply wf_commit.
      * eapply stable_trans; [exact Hst1|]. constructor; cbn; eauto.
        intros q a. apply insert_keeps_occupants. now apply is_cell_empty_true.
    + rewrite (commit_fail nbh m1 self o1 target) by assumption.
      eexists. split; [reflexivity|]. split.
      * apply (wf_update m1 self o1);
          [exact Hwf1 | exact Ho1 | reflexivity | apply known_state_cases; cbn; tauto
          | cbn; discriminate].
      * eapply stable_trans; [exact Hst1|apply stable_with_objects].
  - destruct (is_div_condition (environment m1)) eqn:Hdiv.
    + destruct (List.filter (is_cell_empty (grid m1)) (nbh (grid m1) p)) as [|q qs] eqn:Hf.
      * rewrite (initiate_blocked nbh m1 self o1 p) by assumption.
        eexists. split; [reflexivity|]. split.
        -- apply (wf_update m1 self o1);
             [exact Hwf1 | exact Ho1 | reflexivity | apply known_state_cases; cbn; tauto
             | cbn; congruence].
        -- eapply stable_trans; [exact Hst1|apply stable_with_objects].
      * destruct (initiate_ok nbh m1 self o1 p q qs Ho1 Hd Hdiv Hpos1 Hf) as (target & _ & Hrun).
        rewrite Hrun. eexists. split; [reflexivity|]. split.
        -- now apply wf_initiate.
        -- eapply stable_trans; [exact Hst1|]. constructor; cbn; auto.
           exists []. now rewrite app_nil_r.
    + rewrite (divide_idle nbh m1 self o1) by assumption. eauto.
Qed.

Lemma for_each_wf l : forall m,
  wf m -> (forall a, a ∈ l -> a ∈ agents (schedule m)) ->
  exists m', for_each l (Amoeba_step nbh) m = Ok (tt, m') /\ wf m' /\ stable m m'.
Proof.
  induction l as [|a l IH]; intros m Hwf Hin.
  - exists m. split; [reflexivity|]. split; [exact Hwf|apply stable_refl].
  - destruct (Amoeba_step_wf m a Hwf) as (m1 & Hrun & Hwf1 & Hst1).
    { apply Hin. apply list_elem_of_here. }
    destruct (IH m1 Hwf1) as (m2 & Hrun2 & Hwf2 & Hst2).
    { intros b Hb. eapply stable_elem; [exact Hst1|]. apply Hin. now apply list_elem_of_further. }
    exists m2. split.
    + cbn [for_each]. rewrite (bind_Ok _ _ _ _ _ Hrun). exact Hrun2.
    + split; [exact Hwf2|eapply stable_trans; eauto].
Qed.

End Ticks.

(** ** The scheduler pass and the tick *)

Lemma insert_at_perm {A} n (x : A) l : insert_at n x l ≡ₚ x :: l.
Proof.
  unfold insert_at. rewrite <- Permutation_middle. now rewrite take_drop.
Qed.

Lemma shuffle_perm l g : (shuffle l g).1 ≡ₚ l.
Proof.
  induction l as [|x xs IH]; [reflexivity|].
  cbn [shuffle]. destruct (shuffle xs g) as [ys g1]. cbn [fst] in *.
  rewrite insert_at_perm. now rewrite IH.
Qed.

(** The invariant reads the registry, the store, the cells and the
    temperature description only. *)
Lemma wf_ext m m' :
  wf m ->
  agents (schedule m') = agents (schedule m) -> objects m' = objects m ->
  cells (grid m') = cells (grid m) ->
  temperature_description (environment m') ∈ known_descriptions ->
  wf m'.
Proof.
  intros [Hn Hr Hc Hp Hi Hs He] Ha Ho Hg He'.
  constructor; rewrite ?Ha, ?Ho, ?Hg; assumption.
Qed.

Lemma count_known sts :
  Forall (fun s => s ∈ known_states) sts ->
  (count_state "intact" sts + count_state "dividing" sts + count_state "divided" sts
   + count_state "encysted" sts + count_state "excysted" sts + count_state "stressed" sts
   = length sts)%nat.
Proof.
  unfold count_state. induction 1 as [|s sts Hs _ IH]; [reflexivity|].
  unfold known_states in Hs. rewrite !elem_of_cons, elem_of_nil in Hs.
  destruct Hs as [-> | [-> | [-> | [-> | [-> | [-> | []]]]]]]; cbn; lia.
Qed.

Lemma map_m_get_agent m l :
  (forall a, a ∈ l -> exists o, objects m !! a = Some o) ->
  exists os, map_m get_agent l m = Ok (os, m) /\ length os = length l
             /\ forall o, o ∈ os -> exists a, objects m !! a = Some o.
Proof.
  induction l as [|a l IH]; intros Hin.
  - exists []. split; [reflexivity|]. split; [reflexivity|]. intros o Ho. inversion Ho.
  - destruct (Hin a) as [o Ho]; [apply list_elem_of_here|].
    destruct IH as (os & Hrun & Hlen & Hos).
    { intros b Hb. apply Hin. now apply list_elem_of_further. }
    exists (o :: os). split.
    + cbn [map_m]. rewrite (bind_Ok _ _ _ _ _ (get_agent_Ok _ _ _ Ho)).
      rewrite (bind_Ok _ _ _ _ _ Hrun). reflexivity.
    + split; [cbn; congruence|]. intros o' Ho'. apply elem_of_cons in Ho' as [-> | Ho']; eauto.
Qed.

Section Driver.

Variable nbh : SingleGrid -> position -> list position.

Lemma collect_data_spec m :
  wf m ->
  exists d, collect_data m = Ok (d, m) /\
            counted d = length (agents (schedule m)) /\
            d_step d = steps (schedule m) /\
            d_water_quality d = water_quality (environment m) /\
            d_temperature d = temperature (environment m) /\
            d_month d = month (environment m).
Proof.
  intros Hwf. destruct (map_m_get_agent m (agents (schedule m))) as (os & Hrun & Hlen & Hos).
  { intros a Ha. destruct (wf_registered m Hwf a Ha) as (o & _ & Ho & _). eauto. }
  eexists. split.
  { unfold collect_data. mrun. rewrite (bind_Ok _ _ _ _ _ Hrun). reflexivity. }
  split; [|auto].
  unfold counted. cbn [d_intact d_dividing d_divided d_encysted d_excysted d_stressed].
  rewrite count_known, length_map; [exact Hlen|].
  apply Forall_forall. intros s Hs. apply list_elem_of_In in Hs.
  apply in_map_iff in Hs as (o & <- & Ho). apply list_elem_of_In in Ho.
  destruct (Hos o Ho) as [a Ha]. eapply wf_states; eauto.
Qed.

Lemma RandomActivation_step_spec m :
  wf m ->
  exists m', RandomActivation_step nbh m = Ok (tt, m') /\ wf m' /\
             environment m' = environment m /\ np_random m' = np_random m /\
             data_collector m' = data_collector m /\
             steps (schedule m') = steps (schedule m) + 1 /\
             (exists born, agents (schedule m') = agents (schedule m) ++ born) /\
             (forall p a, cells (grid m) !! p = Some a -> cells (grid m') !! p = Some a).
Proof.
  intros Hwf. unfold RandomActivation_step. mrun.
  set (m0 := with_random _ m).
  assert (Hwf0 : wf m0) by (apply (wf_ext m); auto; apply (wf_env m Hwf)).
  destruct (for_each_wf nbh (activation_order m) m0 Hwf0) as (m1 & Hrun & Hwf1 & Hst).
  { intros a Ha. unfold activation_order in Ha. rewrite shuffle_perm in Ha. exact Ha. }
  rewrite (bind_Ok _ _ _ _ _ Hrun). unfold modify.
  destruct Hst as [He Hnp Hdc Hsteps Hag Hcells]. subst m0. proj_all.
  eexists. split; [reflexivity|]. split.
  { apply (wf_ext m1); proj_all; auto. rewrite He. apply (wf_env m Hwf). }
  proj_all. rewrite Hsteps. auto 10.
Qed.

(** One tick always returns on a well-formed state; the lemma lists what it
    does to each component. *)
Lemma Model_step_spec m :
  wf m ->
  exists m' e' d,
    Model_step nbh m = Ok (tt, m') /\ wf m' /\
    update_conditions (environment m) (np_random m)
      = Ok (e', mkRng (tape (np_random m)) (S (S (cursor (np_random m))))) /\
    environment m' = increment_month e' /\
    data_collector m' = data_collector m ++ [d] /\
    counted d = length (agents (schedule m')) /\
    d_step d = steps (schedule m') /\
    d_water_quality d = water_quality (environment m') /\
    d_temperature d = temperature (environment m') /\
    d_month d = month (environment m') /\
    steps (schedule m') = steps (schedule m) + 1 /\
    (exists born, agents (schedule m') = agents (schedule m) ++ born) /\
    (forall p a, cells (grid m) !! p = Some a -> cells (grid m') !! p = Some a).
Proof.
  intros Hwf.
  destruct (RandomActivation_step_spec m Hwf)
    as (m1 & Hrun & Hwf1 & He & Hnp & Hdc & Hsteps & Hag & Hcells).
  destruct (update_conditions_spec (environment m) (np_random m)) as (e' & Hupd & Hmonth & Htab).
  set (m2 := with_environment (increment_month e')
               (with_np_random (mkRng (tape (np_random m)) (S (S (cursor (np_random m)))))
                  (with_environment e' m1))).
  assert (Hwf2 : wf m2).
  { apply (wf_ext m1); auto. subst m2; proj. cbn. eapply spec_table_known; eauto. }
  destruct (collect_data_spec m2 Hwf2) as (d & Hcol & Hcount & Hd1 & Hd2 & Hd3 & Hd4).
  exists (with_data_collector (data_collector m2 ++ [d]) m2), e', d.
  split.
  { unfold Model_step. rewrite (bind_Ok _ _ _ _ _ Hrun).
    erewrite bind_Ok; [| unfold on_environment; rewrite He, Hnp, Hupd; reflexivity].
    mrun. fold m2. rewrite (bind_Ok _ _ _ _ _ Hcol). reflexivity. }
  split; [apply (wf_ext m2); auto; apply (wf_env m2 Hwf2)|].
  split; [exact Hupd|].
  subst m2; proj_all. rewrite Hdc. repeat (split; [first [reflexivity | assumption | congruence]|]).
  exact Hcells.
Qed.

End Driver.

(** ** Construction *)

Lemma Model_init_spec w h mth rnd np :
  2 <= w -> 2 <= h ->
  exists env x y,
    Model_init w h mth rnd np =
      Ok (tt, mkModel (mkSingleGrid w h true (<[(x, y) := 0%nat]> ∅))
                (mkRandomActivation [0%nat] 0) env []
                [mkAmoeba 1 "intact" false (Some (x, y)) None None]
                0 rnd (mkRng (tape np) (S (S (S (S (cursor np))))))) /\
    x = 1 + Z.of_nat (tape np (S (S (cursor np)))) mod (w - 1) /\
    y = 1 + Z.of_nat (tape np (S (S (S (cursor np))))) mod (h - 1) /\
    1 <= x < w /\ 1 <= y < h /\
    month env = mth /\ spec_table mth env.
Proof.
  intros Hw Hh.
  destruct (update_conditions_spec (mkEnvironment mth 0 0 "") np) as (env & Henv & Hmonth & Htab).
  destruct (randint_Ok 1 w (mkRng (tape np) (S (S (cursor np))))) as (x & Hx & Hxv & Hxb); [lia|].
  destruct (randint_Ok 1 h (mkRng (tape np) (S (S (S (cursor np))))))
    as (y & Hy & Hyv & Hyb); [lia|].
  cbn [tape cursor] in *.
  exists env, x, y. split.
  { unfold Model_init, Environment_init. rewrite Henv. mrun.
    erewrite bind_Ok; [| apply zoom_Ok; proj; exact Hx]. proj.
    erewrite bind_Ok; [| apply zoom_Ok; proj; exact Hy]. proj.
    unfold place_agent, schedule_add. mrun.
    unfold is_cell_empty, SingleGrid_init. cbn [cells]. rewrite lookup_empty. mrun.
    reflexivity. }
  cbn [month] in Hmonth, Htab.
  repeat (split; [first [assumption | lia]|]). exact Htab.
Qed.

Lemma Model_init_fail w h mth rnd np :
  w <= 1 \/ h <= 1 -> Model_init w h mth rnd np = Raise ValueError.
Proof.
  intros Hwh.
  destruct (update_conditions_spec (mkEnvironment mth 0 0 "") np) as (env & Henv & _).
  unfold Model_init, Environment_init. rewrite Henv. mrun.
  destruct (Z_le_gt_dec w 1) as [Hw | Hw].
  - unfold bind at 1. unfold zoom. proj. now rewrite randint_empty.
  - destruct (randint_Ok 1 w (mkRng (tape np) (S (S (cursor np))))) as (x & Hx & _); [lia|].
    erewrite bind_Ok; [| apply zoom_Ok; proj; exact Hx]. proj.
    unfold bind at 1. unfold zoom. proj. rewrite randint_empty by lia. reflexivity.
Qed.

Lemma wf_initial w h x y env rnd np :
  temperature_description env ∈ known_descriptions ->
  wf (mkModel (mkSingleGrid w h true (<[(x, y) := 0%nat]> ∅))
        (mkRandomActivation [0%nat] 0) env []
        [mkAmoeba 1 "intact" false (Some (x, y)) None None] 0 rnd np).
Proof.
  intros He. constructor; cbn [grid schedule objects environment agents cells].
  - apply NoDup_singleton.
  - intros a Ha. apply list_elem_of_singleton in Ha. subst a.
    eexists _, (x, y). split; [reflexivity|]. split; [reflexivity|apply lookup_insert_eq].
  - intros p a Hcell. apply lookup_insert_Some in Hcell as [(<- & <-) | (_ & Hcell)].
    + split; [apply list_elem_of_singleton; reflexivity|]. eexists. split; reflexivity.
    + rewrite lookup_empty in Hcell. discriminate.
  - intros a o Ho Hd. apply list_lookup_singleton_Some in Ho as (_ & <-). discriminate.
  - intros a a' o o' c Ho _ Hd. apply list_lookup_singleton_Some in Ho as (_ & <-). discriminate.
  - intros a o Ho. apply list_lookup_singleton_Some in Ho as (_ & <-).
    apply known_state_cases. cbn. tauto.
  - exact He.
Qed.

Lemma Model_init_bounds w h mth rnd np m :
  Model_init w h mth rnd np = Ok (tt, m) -> 2 <= w /\ 2 <= h.
Proof.
  intros Hrun. destruct (Z_le_gt_dec w 1) as [Hw | Hw].
  { rewrite Model_init_fail in Hrun by auto. discriminate. }
  destruct (Z_le_gt_dec h 1) as [Hh | Hh].
  { rewrite Model_init_fail in Hrun by auto. discriminate. }
  lia.
Qed.

Lemma Model_init_wf w h mth rnd np m :
  Model_init w h mth rnd np = Ok (tt, m) -> wf m.
Proof.
  intros Hrun. destruct (Model_init_bounds _ _ _ _ _ _ Hrun) as [Hw Hh].
  destruct (Model_init_spec w h mth rnd np Hw Hh) as (env & x & y & Hspec & _ & _ & _ & _ & _ & Htab).
  rewrite Hspec in Hrun. injection Hrun as <-.
  apply wf_initial. eapply spec_table_known; eauto.
Qed.

Section Reachability.

Variable nbh : SingleGrid -> position -> list position.

Lemma reachable_wf m : reachable nbh m -> wf m.
Proof.
  induction 1 as [w h mth rnd np m Hinit | m m' _ IH Hstep].
  - eapply Model_init_wf; eauto.
  - destruct (Model_step_spec nbh m IH) as (m2 & e' & d & Hrun & Hwf2 & _).
    rewrite Hrun in Hstep. injection Hstep as <-. exact Hwf2.
Qed.

Lemma reachable_run n : forall m m',
  reachable nbh m -> run_simulation nbh n m = Ok (tt, m') -> reachable nbh m'.
Proof.
  induction n as [|n IH]; intros m m' Hr Hrun.
  - injection Hrun as <-. exact Hr.
  - cbn [run_simulation] in Hrun.
    destruct (Model_step_spec nbh m (reachable_wf m Hr)) as (m1 & e' & d & Hstep & _).
    rewrite (bind_Ok _ _ _ _ _ Hstep) in Hrun.
    eapply IH; [|exact Hrun]. eapply reachable_step; eauto.
Qed.

End Reachability.

(** ** The sample runs are reachable *)

Lemma spring0_reachable : reachable moore_torus spring0.
Proof. apply (reachable_init moore_torus 3 3 4 sample_tape sample_tape). reflexivity. Qed.

Lemma spring1_reachable : reachable moore_torus spring1.
Proof.
  apply (reachable_run moore_torus 1 spring0); [exact spring0_reachable|].
  vm_compute. reflexivity.
Qed.

Lemma autumn0_reachable : reachable moore_torus autumn0.
Proof. apply (reachable_init moore_torus 3 3 11 sample_tape sample_tape). reflexivity. Qed.

(** * The claims *)

Lemma wf_single_occupancy m : wf m -> single_occupancy m.
Proof.
  intros [Hn Hr Hc Hp Hi Hs He].
  split; [exact Hn|]. split; [exact Hc|]. split.
  - intros a Ha. destruct (Hr a Ha) as (o & p & Ho & Hpos & Hcell).
    exists o, p. split; [exact Ho|]. split; [exact Hpos|].
    intros q. split.
    + intros Hq. destruct (Hc q a Hq) as (_ & o' & Ho' & Hpos'). congruence.
    + intros ->. exact Hcell.
  - intros a b oa ob p Ha Hb Hoa Hob Hpa Hpb.
    destruct (Hr a Ha) as (oa' & pa & Hoa' & Hpa' & Hca).
    destruct (Hr b Hb) as (ob' & pb & Hob' & Hpb' & Hcb).
    assert (pa = p) by congruence. assert (pb = p) by congruence. subst pa pb. congruence.
Qed.

Section Claims.

Variable nbh : SingleGrid -> position -> list position.

(** C1 (single occupancy).  In every state reached by construction followed
    by any number of ticks, the registry and the grid agree: an occupied cell
    holds one registered organism whose recorded position is that cell, a
    registered organism occupies its recorded cell and no other, and no two
    organisms share a coordinate.  The next tick returns (the grid never
    refuses a placement), never replaces the occupant of a cell, and leads to
    a state with the same property. *)
Theorem single_occupancy_invariant (m : AmoebaDivisionModel) :
  reachable nbh m ->
  single_occupancy m /\
  exists m', Model_step nbh m = Ok (tt, m') /\ single_occupancy m' /\
             forall p a, cells (grid m) !! p = Some a -> cells (grid m') !! p = Some a.
Proof.
  intros Hr. pose proof (reachable_wf nbh m Hr) as Hwf.
  split; [now apply wf_single_occupancy|].
  destruct (Model_step_spec nbh m Hwf)
    as (m' & e' & d & Hrun & Hwf' & _ & _ & _ & _ & _ & _ & _ & _ & _ & _ & Hcells).
  exists m'. split; [exact Hrun|]. split; [now apply wf_single_occupancy|exact Hcells].
Qed.

(** C2 (two-phase commit).  An organism activated with
    [dividing_next_step] set finishes the activation with the flag cleared.
    If the recorded target cell is empty, the child is placed there, appended
    to the registry with state intact, and the parent is divided; otherwise
    the parent is stressed and grid and registry are unchanged. *)
Theorem division_commit (m : AmoebaDivisionModel) (self : nat) (o : Amoeba)
    (target : position) (child : nat) :
  wf m -> self ∈ agents (schedule m) ->
  objects m !! self = Some o -> dividing_next_step o = true ->
  new_position o = Some target -> new_amoeba o = Some child ->
  exists m' o',
    Amoeba_step nbh self m = Ok (tt, m') /\
    objects m' !! self = Some o' /\ dividing_next_step o' = false /\
    if is_cell_empty (grid m) target then
      state o' = "divided" /\
      cells (grid m') = <[target := child]> (cells (grid m)) /\
      agents (schedule m') = agents (schedule m) ++ [child] /\
      exists oc, objects m' !! child = Some oc /\ state oc = "intact" /\ pos oc = Some target
    else
      state o' = "stressed" /\ grid m' = grid m /\ schedule m' = schedule m /\
      length (agents (schedule m')) = length (agents (schedule m)).
Proof.
  intros Hwf Hself Ho Hd Hnp Hna.
  destruct (wf_pending m Hwf self o Ho Hd) as (_ & p0 & c0 & Hp0 & Hc0 & Hlt & Hfresh).
  assert (c0 = child) by congruence. subst c0. clear Hp0 Hc0.
  assert (Hne : child <> self) by (intros ->; contradiction).
  destruct (lookup_lt_is_Some_2 _ _ Hlt) as [oc Hoc].
  rewrite (Amoeba_step_unfold nbh m self o Ho). cbv zeta.
  set (o1 := dormancy (environment m) o).
  set (m1 := with_objects (<[self := o1]> (objects m)) m).
  assert (Ho1 : objects m1 !! self = Some o1) by (subst m1; proj; lk; reflexivity).
  assert (Hoc1 : objects m1 !! child = Some oc) by (subst m1; proj; lk; exact Hoc).
  assert (Hd1 : dividing_next_step o1 = true) by (subst o1; now rewrite dormancy_dividing).
  assert (Hnp1 : new_position o1 = Some target) by (subst o1; now rewrite dormancy_new_position).
  assert (Hna1 : new_amoeba o1 = Some child) by (subst o1; now rewrite dormancy_new_amoeba).
  unfold division_gate. rewrite Hd1, orb_true_r.
  change (grid m) with (grid m1). change (schedule m) with (schedule m1).
  clearbody m1 o1.
  destruct (is_cell_empty (grid m1) target) eqn:Hemp.
  - rewrite (commit_ok nbh m1 self o1 target child oc) by assumption.
    eexists _, _. split; [reflexivity|]. proj. cbn [cells agents].
    split; [lk; reflexivity|]. split; [reflexivity|]. split; [reflexivity|].
    split; [reflexivity|]. split; [reflexivity|].
    eexists. split; [lk; reflexivity|]. split; reflexivity.
  - rewrite (commit_fail nbh m1 self o1 target) by assumption.
    eexists _, _. split; [reflexivity|]. proj.
    split; [lk; reflexivity|]. repeat split; reflexivity.
Qed.

Lemma filter_all_false {A} (f : A -> bool) l :
  Forall (fun x => f x = false) l -> List.filter f l = [].
Proof.
  induction 1 as [|x l Hx _ IH]; [reflexivity|]. cbn. now rewrite Hx.
Qed.

Lemma gate_needs_division e o :
  temperature_description e ∈ known_descriptions ->
  dividing_next_step o = false ->
  division_gate e (dormancy e o) = true ->
  is_div_condition e = true.
Proof.
  intros Hk Hd Hgate. unfold division_gate in Hgate.
  rewrite dormancy_dividing, Hd, orb_false_r in Hgate.
  destruct (is_div_condition e) eqn:Hdiv; [reflexivity|].
  rewrite orb_false_r in Hgate. unfold dormancy in Hgate.
  rewrite (encystment_negates_division e Hk), Hdiv in Hgate. discriminate Hgate.
Qed.

(** C3 (full neighbourhood).  An organism without a pending division that
    passes the division gate while every cell of its neighbourhood is
    occupied ends the activation stressed, not dividing, with no division
    pending and no target or child recorded; grid and registry are unchanged. *)
Theorem full_neighbourhood_stressed (m : AmoebaDivisionModel) (self : nat) (o : Amoeba)
    (xy : position) :
  objects m !! self = Some o -> pos o = Some xy ->
  dividing_next_step o = false ->
  temperature_description (environment m) ∈ known_descriptions ->
  division_gate (environment m) (dormancy (environment m) o) = true ->
  Forall (fun q => is_cell_empty (grid m) q = false) (nbh (grid m) xy) ->
  exists m' o',
    Amoeba_step nbh self m = Ok (tt, m') /\
    objects m' !! self = Some o' /\
    state o' = "stressed" /\ state o' <> "dividing" /\
    dividing_next_step o' = false /\
    new_position o' = new_position o /\ new_amoeba o' = new_amoeba o /\
    grid m' = grid m /\ schedule m' = schedule m.
Proof.
  intros Ho Hpos Hd Hk Hgate Hfull.
  pose proof (gate_needs_division _ _ Hk Hd Hgate) as Hdiv.
  rewrite (Amoeba_step_unfold nbh m self o Ho). cbv zeta. rewrite Hgate.
  erewrite (initiate_blocked nbh _ self (dormancy (environment m) o) xy).
  - eexists _, _. split; [reflexivity|]. proj.
    split; [lk; reflexivity|]. cbn [state set_state dividing_next_step new_position new_amoeba].
    rewrite dormancy_dividing, dormancy_new_position, dormancy_new_amoeba.
    repeat split; auto.
  - proj. lk. reflexivity.
  - now rewrite dormancy_dividing.
  - exact Hdiv.
  - now rewrite dormancy_pos.
  - proj. now apply filter_all_false.
Qed.

(** C5 (metrics completeness).  The tick returns and appends one record to
    the metrics log; the six per-state counts of that record add up to the
    number of registered organisms, each of which carries one of the six
    states. *)
Theorem metrics_completeness (m : AmoebaDivisionModel) :
  reachable nbh m ->
  exists m' d,
    Model_step nbh m = Ok (tt, m') /\
    data_collector m' = data_collector m ++ [d] /\
    counted d = length (agents (schedule m')) /\
    forall a, a ∈ agents (schedule m') ->
      exists o, objects m' !! a = Some o /\ state o ∈ known_states.
Proof.
  intros Hr. pose proof (reachable_wf nbh m Hr) as Hwf.
  destruct (Model_step_spec nbh m Hwf) as (m' & e' & d & Hrun & Hwf' & _ & _ & Hdc & Hcount & _).
  exists m', d. split; [exact Hrun|]. split; [exact Hdc|]. split; [exact Hcount|].
  intros a Ha. destruct (wf_registered m' Hwf' a Ha) as (o & _ & Ho & _).
  exists o. split; [exact Ho|]. eapply wf_states; eauto.
Qed.

Lemma spec_table_increment mth e : spec_table mth e -> spec_table mth (increment_month e).
Proof. unfold spec_table. destruct e; cbn. auto. Qed.

(** C6, as the code has it.  The tick returns; its environment advance
    redraws water quality, temperature and description from the ranges of the
    month stored before the tick and only then increments the month, so the
    stored conditions lie in the ranges of the month preceding the stored
    one. *)
Theorem advance_redraws_then_increments (m : AmoebaDivisionModel) :
  reachable nbh m ->
  exists m',
    Model_step nbh m = Ok (tt, m') /\
    month (environment m')
      = (if month (environment m) =? 12 then 1 else month (environment m) + 1) /\
    spec_table (month (environment m)) (environment m').
Proof.
  intros Hr. pose proof (reachable_wf nbh m Hr) as Hwf.
  destruct (Model_step_spec nbh m Hwf) as (m' & e' & d & Hrun & _ & Hupd & Henv & _).
  destruct (update_conditions_spec (environment m) (np_random m)) as (e2 & Hupd2 & Hmonth & Htab).
  rewrite Hupd in Hupd2. injection Hupd2 as <-.
  exists m'. split; [exact Hrun|]. rewrite Henv. split.
  - cbn [increment_month month]. now rewrite Hmonth.
  - now apply spec_table_increment.
Qed.

End Claims.

(** C7, as the code has it.  The constructor validates nothing: a width
    or height below 2 (in particular below 1) makes the draw of the seed
    position raise, so no model is returned, while with both at least 2 the
    construction succeeds for every month, in or out of 1..12. *)
Theorem constructor_checks (w h mth : Z) (rnd np : Rng) :
  (w < 2 \/ h < 2 -> Model_init w h mth rnd np = Raise ValueError) /\
  (2 <= w -> 2 <= h ->
   exists m, Model_init w h mth rnd np = Ok (tt, m) /\ month (environment m) = mth).
Proof.
  split.
  - intros H. apply Model_init_fail. lia.
  - intros Hw Hh.
    destruct (Model_init_spec w h mth rnd np Hw Hh) as (env & x & y & Hrun & _ & _ & _ & _ & Hm & _).
    eexists. split; [exact Hrun|exact Hm].
Qed.

(** C8, as the code has it.  With width and height at least 2 the
    construction succeeds for every month and leaves exactly one organism,
    intact, registered and placed at a cell whose coordinates are both at
    least 1 (the last row and column included); every such cell is the seed
    position for some state of the generator. *)
Theorem seed_placement (w h mth : Z) (rnd np : Rng) :
  2 <= w -> 2 <= h ->
  (exists m x y,
     Model_init w h mth rnd np = Ok (tt, m) /\
     1 <= x < w /\ 1 <= y < h /\
     agents (schedule m) = [0%nat] /\
     objects m = [mkAmoeba 1 "intact" false (Some (x, y)) None None] /\
     cells (grid m) = <[(x, y) := 0%nat]> ∅) /\
  (forall x y, 1 <= x < w -> 1 <= y < h ->
     exists np' m,
       Model_init w h mth rnd np' = Ok (tt, m) /\
       objects m = [mkAmoeba 1 "intact" false (Some (x, y)) None None] /\
       cells (grid m) = <[(x, y) := 0%nat]> ∅).
Proof.
  intros Hw Hh. split.
  - destruct (Model_init_spec w h mth rnd np Hw Hh) as (env & x & y & Hrun & _ & _ & Hx & Hy & _).
    eexists _, x, y. split; [exact Hrun|]. repeat (split; [first [assumption|reflexivity]|]).
    reflexivity.
  - intros x y Hx Hy.
    set (np' := tape_of 0 0 (Z.to_nat (x - 1)) (Z.to_nat (y - 1))).
    destruct (Model_init_spec w h mth rnd np' Hw Hh)
      as (env & x' & y' & Hrun & Hxv & Hyv & _).
    assert (x' = x).
    { rewrite Hxv. cbn. rewrite Z2Nat.id by lia. rewrite Z.mod_small by lia. lia. }
    assert (y' = y).
    { rewrite Hyv. cbn. rewrite Z2Nat.id by lia. rewrite Z.mod_small by lia. lia. }
    clear Hxv Hyv. subst x' y'. eexists np', _. split; [exact Hrun|]. split; reflexivity.
Qed.

(** ** The claims on the sample runs *)

Lemma single_occupancy_witness :
  reachable moore_torus spring1 /\
  single_occupancy spring1 /\
  exists m', Model_step moore_torus spring1 = Ok (tt, m') /\ single_occupancy m' /\
             forall p a, cells (grid spring1) !! p = Some a -> cells (grid m') !! p = Some a.
Proof.
  split; [exact spring1_reachable|].
  exact (single_occupancy_invariant moore_torus spring1 spring1_reachable).
Defined.

Lemma division_commit_witness :
  wf spring1 /\ 0%nat ∈ agents (schedule spring1) /\
  objects spring1 !! 0%nat
    = Some (mkAmoeba 1 "dividing" true (Some (1, 2)) (Some (0, 2)) (Some 1%nat)) /\
  is_cell_empty (grid spring1) (0, 2) = true /\
  exists m' o',
    Amoeba_step moore_torus 0 spring1 = Ok (tt, m') /\
    objects m' !! 0%nat = Some o' /\ dividing_next_step o' = false /\
    state o' = "divided" /\
    cells (grid m') = <[(0, 2) := 1%nat]> (cells (grid spring1)) /\
    agents (schedule m') = agents (schedule spring1) ++ [1%nat] /\
    exists oc, objects m' !! 1%nat = Some oc /\ state oc = "intact" /\ pos oc = Some (0, 2).
Proof.
  assert (Hwf : wf spring1) by exact (reachable_wf moore_torus spring1 spring1_reachable).
  assert (Hin : 0%nat ∈ agents (schedule spring1)) by (vm_compute; constructor).
  split; [exact Hwf|]. split; [exact Hin|]. split; [reflexivity|]. split; [reflexivity|].
  exact (division_commit moore_torus spring1 0
           (mkAmoeba 1 "dividing" true (Some (1, 2)) (Some (0, 2)) (Some 1%nat))
           (0, 2) 1 Hwf Hin eq_refl eq_refl eq_refl eq_refl).
Defined.

Lemma full_neighbourhood_witness :
  objects crowded !! 0%nat = Some (mkAmoeba 1 "intact" false (Some (0, 0)) None None) /\
  Forall (fun q => is_cell_empty (grid crowded) q = false) (moore_torus (grid crowded) (0, 0)) /\
  exists m' o',
    Amoeba_step moore_torus 0 crowded = Ok (tt, m') /\
    objects m' !! 0%nat = Some o' /\
    state o' = "stressed" /\ state o' <> "dividing" /\
    dividing_next_step o' = false /\
    new_position o' = None /\ new_amoeba o' = None /\
    grid m' = grid crowded /\ schedule m' = schedule crowded.
Proof.
  assert (Hfull : Forall (fun q => is_cell_empty (grid crowded) q = false)
                    (moore_torus (grid crowded) (0, 0))).
  { vm_compute. repeat constructor. }
  split; [reflexivity|]. split; [exact Hfull|].
  apply (full_neighbourhood_stressed moore_torus crowded 0
           (mkAmoeba 1 "intact" false (Some (0, 0)) None None) (0, 0)).
  - reflexivity.
  - reflexivity.
  - reflexivity.
  - vm_compute. repeat constructor.
  - reflexivity.
  - exact Hfull.
Defined.

Lemma metrics_completeness_witness :
  reachable moore_torus spring1 /\
  exists m' d,
    Model_step moore_torus spring1 = Ok (tt, m') /\
    data_collector m' = data_collector spring1 ++ [d] /\
    counted d = length (agents (schedule m')) /\
    forall a, a ∈ agents (schedule m') ->
      exists o, objects m' !! a = Some o /\ state o ∈ known_states.
Proof.
  split; [exact spring1_reachable|].
  exact (metrics_completeness moore_torus spring1 spring1_reachable).
Defined.

Lemma advance_witness :
  reachable moore_torus autumn0 /\
  exists m',
    Model_step moore_torus autumn0 = Ok (tt, m') /\
    month (environment m')
      = (if month (environment autumn0) =? 12 then 1 else month (environment autumn0) + 1) /\
    spec_table (month (environment autumn0)) (environment m').
Proof.
  split; [exact autumn0_reachable|].
  exact (advance_redraws_then_increments moore_torus autumn0 autumn0_reachable).
Defined.

Lemma constructor_checks_witness :
  Model_init 0 5 13 sample_tape sample_tape = Raise ValueError /\
  exists m, Model_init 10 10 13 sample_tape sample_tape = Ok (tt, m)
            /\ month (environment m) = 13.
Proof.
  split.
  - apply (constructor_checks 0 5 13 sample_tape sample_tape). lia.
  - apply (constructor_checks 10 10 13 sample_tape sample_tape); lia.
Defined.

Lemma seed_placement_witness :
  (exists m x y,
     Model_init 3 3 4 sample_tape sample_tape = Ok (tt, m) /\
     1 <= x < 3 /\ 1 <= y < 3 /\
     agents (schedule m) = [0%nat] /\
     objects m = [mkAmoeba 1 "intact" false (Some (x, y)) None None] /\
     cells (grid m) = <[(x, y) := 0%nat]> ∅) /\
  (forall x y, 1 <= x < 3 -> 1 <= y < 3 ->
     exists np' m,
       Model_init 3 3 4 sample_tape np' = Ok (tt, m) /\
       objects m = [mkAmoeba 1 "intact" false (Some (x, y)) None None] /\
       cells (grid m) = <[(x, y) := 0%nat]> ∅).
Proof.
  apply (seed_placement 3 3 4 sample_tape sample_tape); lia.
Defined.

(** ** Where the specification and the code part *)

(** C6 as stated fails: started in November, the first tick stores month 12
    together with conditions drawn for November, so the winter record has
    water quality 79, outside [0, 50). *)
Lemma advance_order_counterexample :
  reachable moore_torus autumn0 /\
  Model_step moore_torus autumn0 = Ok (tt, autumn1) /\
  month (environment autumn1) = 12 /\
  water_quality (environment autumn1) = 79 /\
  temperature_description (environment autumn1) = "normal" /\
  ~ spec_table (month (environment autumn1)) (environment autumn1).
Proof.
  split; [exact autumn0_reachable|].
  split; [vm_compute; reflexivity|].
  split; [reflexivity|]. split; [reflexivity|]. split; [reflexivity|].
  intros H. vm_compute in H. destruct H as ((_ & H) & _). discriminate H.
Qed.

(** C7 as stated fails: month 13 is accepted. *)
Lemma month_unchecked_counterexample :
  exists m, Model_init 10 10 13 sample_tape sample_tape = Ok (tt, m)
            /\ month (environment m) = 13.
Proof. eexists. split; [vm_compute; reflexivity|reflexivity]. Qed.

(** C8 as stated fails: a 1 x 1 grid in month 1 is a valid configuration
    and yet the construction raises; and on a 3 x 3 grid the seed can land on
    the corner (2, 2), a border cell. *)
Lemma seed_placement_counterexample :
  Model_init 1 1 1 sample_tape sample_tape = Raise ValueError /\
  exists m, Model_init 3 3 4 sample_tape (tape_of 0 0 1 1) = Ok (tt, m)
            /\ cells (grid m) !! (2, 2) = Some 0%nat.
Proof.
  split; [reflexivity|]. eexists. split; [vm_compute; reflexivity|reflexivity].
Qed.

Lemma month_cyclicity_witness :
  1 <= month (mkEnvironment 12 40 (-5) "sub-zero") <= 12 /\
  1 <= month (increment_month (mkEnvironment 12 40 (-5) "sub-zero")) <= 12 /\
  Nat.iter 12 increment_month (mkEnvironment 12 40 (-5) "sub-zero")
    = mkEnvironment 12 40 (-5) "sub-zero".
Proof.
  assert (H : 1 <= month (mkEnvironment 12 40 (-5) "sub-zero") <= 12) by (cbn; lia).
  split; [exact H|].
  exact (month_cyclicity (mkEnvironment 12 40 (-5) "sub-zero") H).
Defined.

(** * Further properties of the module *)

(** ** What one activation does *)

Lemma dormancy_unique_id e o : unique_id (dormancy e o) = unique_id o.
Proof. unfold dormancy. repeat case_match; reflexivity. Qed.

Lemma dormancy_adverse e o : is_encystment_condition e = true -> state (dormancy e o) = "encysted".
Proof. intros H. unfold dormancy. now rewrite H. Qed.

Lemma post_state_cases s :
  s = "encysted" \/ s = "dividing" \/ s = "divided" \/ s = "stressed" -> s ∈ post_states.
Proof. unfold post_states. rewrite !elem_of_cons. tauto. Qed.

Section Outcome.

Variable nbh : SingleGrid -> position -> list position.

Ltac effect_cases :=
  constructor;
  cbn [pos unique_id state dividing_next_step set_state set_dividing_next_step];
  try solve [ auto | congruence | discriminate | apply post_state_cases; tauto
            | split; discriminate | split; reflexivity | split; congruence
            | intros; split; [reflexivity | tauto] ].

Lemma Amoeba_step_activated m self :
  wf m -> self ∈ agents (schedule m) ->
  exists m', Amoeba_step nbh self m = Ok (tt, m') /\ activated m self m'.
Proof.
  intros Hwf Hself.
  destruct (wf_registered m Hwf self Hself) as (o & p & Ho & Hpos & Hcell).
  pose proof (encystment_negates_division _ (wf_env m Hwf)) as Henc.
  rewrite (Amoeba_step_unfold nbh m self o Ho). cbv zeta.
  set (o1 := dormancy (environment m) o).
  set (m1 := with_objects (<[self := o1]> (objects m)) m).
  assert (Hwf1 : wf m1) by (apply wf_dormancy; assumption).
  assert (Ho1 : objects m1 !! self = Some o1) by (subst m1; proj; lk; reflexivity).
  assert (Hoth : forall b, b <> self -> objects m1 !! b = objects m !! b)
    by (intros b Hb; subst m1; proj; lk; reflexivity).
  assert (Hp1 : pos o1 = pos o) by apply dormancy_pos.
  assert (Hid1 : unique_id o1 = unique_id o) by apply dormancy_unique_id.
  assert (Hf1 : dividing_next_step o1 = dividing_next_step o) by apply dormancy_dividing.
  assert (Hs1 : is_encystment_condition (environment m) = true -> state o1 = "encysted")
    by apply dormancy_adverse.
  assert (Hsch : schedule m1 = schedule m) by reflexivity.
  assert (Hgr : grid m1 = grid m) by reflexivity.
  assert (Henv : environment m1 = environment m) by reflexivity.
  clearbody m1 o1.
  destruct (division_gate (environment m) o1) eqn:Hgate.
  - destruct (dividing_next_step o1) eqn:Hd.
    + (* a pending division is resolved *)
      destruct (wf_pending m1 Hwf1 self o1 Ho1 Hd)
        as (_ & target & child & Hnp & Hna & Hlt & Hfresh).
      destruct (lookup_lt_is_Some_2 _ _ Hlt) as [oc Hoc].
      assert (Hne : child <> self) by (intros ->; rewrite Hsch in Hfresh; contradiction).
      assert (Hfc : dividing_next_step oc = false).
      { destruct (dividing_next_step oc) eqn:E; [|reflexivity].
        destruct (wf_pending m1 Hwf1 child oc Hoc E) as (Hin & _). contradiction. }
      destruct (is_cell_empty (grid m1) target) eqn:Hemp.
      * rewrite (commit_ok nbh m1 self o1 target child oc) by assumption.
        eexists. split; [reflexivity|].
        constructor; cbn [objects schedule grid agents cells environment].
        -- eexists o, _. split; [exact Ho|]. split; [lk; reflexivity|].
           effect_cases.
        -- intros b Hb Hin. rewrite <- Hsch in Hin.
           assert (b <> child) by (intros ->; contradiction).
           lk. now apply Hoth.
        -- intros b ob' Hb Hlook. rewrite list_lookup_insert_ne in Hlook by congruence.
           apply list_lookup_insert_Some in Hlook as [(<- & <- & _) | (Hn2 & Hlook)].
           ++ right. cbn. auto.
           ++ left. now rewrite <- Hoth.
        -- exists [child]. rewrite Hsch. split; [reflexivity|]. split; [cbn; lia|]. split.
           ++ rewrite map_size_insert_None by (now apply is_cell_empty_true).
              rewrite Hgr. cbn. lia.
           ++ intros c Hc. apply list_elem_of_singleton in Hc. subst c.
              eexists. split; [lk; reflexivity|]. cbn. eauto.
      * rewrite (commit_fail nbh m1 self o1 target) by assumption.
        eexists. split; [reflexivity|].
        constructor; proj.
        -- eexists o, _. split; [exact Ho|]. split; [lk; reflexivity|].
           effect_cases.
        -- intros b Hb Hin. lk. now apply Hoth.
        -- intros b ob' Hb Hlook. rewrite list_lookup_insert_ne in Hlook by congruence.
           left. now rewrite <- Hoth.
        -- exists []. rewrite Hsch, Hgr, app_nil_r. split; [reflexivity|].
           split; [cbn; lia|]. split; [cbn; lia|]. intros c Hc. inversion Hc.
    + destruct (is_div_condition (environment m1)) eqn:Hdiv.
      * (* a division is attempted *)
        assert (Hfav : is_encystment_condition (environment m) = false)
          by (rewrite Henc, <- Henv, Hdiv; reflexivity).
        destruct (List.filter (is_cell_empty (grid m1)) (nbh (grid m1) p)) as [|q qs] eqn:Hf.
        -- rewrite (initiate_blocked nbh m1 self o1 p) by (try assumption; congruence).
           eexists. split; [reflexivity|].
           constructor; proj.
           ++ eexists o, _. split; [exact Ho|]. split; [lk; reflexivity|].
              effect_cases.
           ++ intros b Hb Hin. lk. now apply Hoth.
           ++ intros b ob' Hb Hlook. rewrite list_lookup_insert_ne in Hlook by congruence.
              left. now rewrite <- Hoth.
           ++ exists []. rewrite Hsch, Hgr, app_nil_r. split; [reflexivity|].
              split; [cbn; lia|]. split; [cbn; lia|]. intros c Hc. inversion Hc.
        -- destruct (initiate_ok nbh m1 self o1 p q qs Ho1 Hd Hdiv) as (target & _ & Hrun);
             [congruence|exact Hf|].
           rewrite Hrun. eexists. split; [reflexivity|].
           constructor; cbn [objects schedule grid agents cells environment].
           ++ eexists o, _. split; [exact Ho|]. split; [lk; reflexivity|].
              effect_cases.
           ++ intros b Hb Hin. rewrite <- Hoth by exact Hb.
              destruct (wf_registered m Hwf b Hin) as (ob & _ & Hob & _).
              rewrite <- Hoth in Hob by exact Hb. lk. reflexivity.
           ++ intros b ob' Hb Hlook. apply lookup_snoc_Some in Hlook as [(_ & Hl) | (_ & <-)].
              ** rewrite list_lookup_insert_ne in Hl by congruence. left. now rewrite <- Hoth.
              ** right. split; reflexivity.
           ++ exists []. rewrite Hsch, Hgr, app_nil_r. split; [reflexivity|].
              split; [cbn; lia|]. split; [cbn; lia|]. intros c Hc. inversion Hc.
      * (* the gate cannot be open with nothing to do *)
        exfalso. unfold division_gate in Hgate.
        rewrite Hd, <- Henv, Hdiv, !orb_false_r in Hgate.
        rewrite Hs1 in Hgate; [discriminate|].
        rewrite Henc, <- Henv, Hdiv. reflexivity.
  - (* the gate is closed *)
    unfold division_gate in Hgate.
    apply orb_false_elim in Hgate as [Hgate Hd].
    apply orb_false_elim in Hgate as [_ Hdiv].
    assert (Hadv : is_encystment_condition (environment m) = true)
      by (rewrite Henc, Hdiv; reflexivity).
    eexists. split; [reflexivity|].
    constructor.
    + eexists o, o1. split; [exact Ho|]. split; [exact Ho1|].
      rewrite Hf1 in Hd. specialize (Hs1 Hadv).
      constructor; rewrite ?Hs1; rewrite ?Hf1, ?Hd;
        try solve [ auto | congruence | discriminate | apply post_state_cases; tauto
                  | split; discriminate ].
    + intros b Hb _. now apply Hoth.
    + intros b ob' Hb Hlook. left. now rewrite <- Hoth.
    + exists []. rewrite Hsch, Hgr, app_nil_r. split; [reflexivity|].
      split; [cbn; lia|]. split; [cbn; lia|]. intros c Hc. inversion Hc.
Qed.

End Outcome.

(** ** What one pass and one tick do *)

Lemma tidy_activated m self m' : tidy m -> activated m self m' -> tidy m'.
Proof.
  intros Ht [(o & o' & Ho & Ho' & Heff) _ Hoth _] b ob' Hb.
  destruct (decide (b = self)) as [-> | Hne].
  - rewrite Ho' in Hb. injection Hb as <-. destruct Heff as [_ _ Hst Hfl _ _ _].
    split; [|exact Hfl]. intros E. rewrite E in Hst.
    unfold post_states in Hst. rewrite !elem_of_cons, elem_of_nil in Hst.
    destruct Hst as [H | [H | [H | [H | []]]]]; discriminate H.
  - destruct (Hoth b ob' Hne Hb) as [Hold | (Hs & Hf)].
    + exact (Ht b ob' Hold).
    + rewrite Hs, Hf. split; [discriminate|]. split; discriminate.
Qed.

Lemma map_m_get_agent_pure l : forall m os m',
  map_m get_agent l m = Ok (os, m') -> m' = m /\ Forall2 (fun a o => objects m !! a = Some o) l os.
Proof.
  induction l as [|a l IH]; intros m os m' H.
  - injection H as <- <-. split; [reflexivity|constructor].
  - cbn [map_m] in H. unfold bind, get_agent, ret in H. fold (@get_agent) in H.
    destruct (objects m !! a) as [o|] eqn:Ho; [|discriminate].
    destruct (map_m get_agent l m) as [[os' m2]|] eqn:Hrec; [|discriminate].
    injection H as <- <-. destruct (IH m os' m2 Hrec) as [-> HF].
    split; [reflexivity|]. constructor; assumption.
Qed.

Section Pass.

Variable nbh : SingleGrid -> position -> list position.

Lemma Amoeba_step_full m self :
  wf m -> self ∈ agents (schedule m) ->
  exists m', Amoeba_step nbh self m = Ok (tt, m') /\ wf m' /\ stable m m' /\ activated m self m'.
Proof.
  intros Hwf Hself.
  destruct (Amoeba_step_wf nbh m self Hwf Hself) as (m1 & Hrun1 & Hwf1 & Hst1).
  destruct (Amoeba_step_activated nbh m self Hwf Hself) as (m2 & Hrun2 & Hact).
  rewrite Hrun1 in Hrun2. injection Hrun2 as <-. eauto.
Qed.

Lemma for_each_visits l : forall m,
  wf m -> NoDup l -> (forall a, a ∈ l -> a ∈ agents (schedule m)) ->
  exists m',
    for_each l (Amoeba_step nbh) m = Ok (tt, m') /\ wf m' /\ stable m m' /\
    (forall a, a ∈ agents (schedule m) -> a ∉ l -> objects m' !! a = objects m !! a) /\
    (forall a, a ∈ l ->
       exists o o', objects m !! a = Some o /\ objects m' !! a = Some o'
                    /\ effect (environment m) o o') /\
    (exists born,
       agents (schedule m') = agents (schedule m) ++ born /\
       (length born <= length l)%nat /\
       size (cells (grid m')) = (size (cells (grid m)) + length born)%nat /\
       forall c, c ∈ born ->
         exists oc, objects m' !! c = Some oc /\ state oc = "intact"
                    /\ dividing_next_step oc = false /\ is_Some (pos oc)) /\
    (tidy m -> tidy m').
Proof.
  induction l as [|a l IH]; intros m Hwf Hnd Hin.
  - exists m. split; [reflexivity|]. split; [exact Hwf|]. split; [apply stable_refl|].
    split; [auto|]. split; [intros a Ha; inversion Ha|]. split; [|auto].
    exists []. rewrite app_nil_r. split; [reflexivity|]. split; [cbn; lia|].
    split; [cbn; lia|]. intros c Hc. inversion Hc.
  - apply NoDup_cons in Hnd as [Hal Hnd].
    destruct (Amoeba_step_full m a Hwf) as (m1 & Hrun1 & Hwf1 & Hst1 & Hact).
    { apply Hin. apply list_elem_of_here. }
    pose proof Hact as Hact'.
    destruct Hact as [Hself Hreg _ (born1 & Hag1 & Hlen1 & Hsz1 & Hb1)].
    destruct (IH m1 Hwf1 Hnd) as (m' & Hrun & Hwf' & Hst & Hframe & Hvis & Hborn & Htidy).
    { intros b Hb. eapply stable_elem; [exact Hst1|]. apply Hin. now apply list_elem_of_further. }
    destruct Hborn as (born2 & Hag2 & Hlen2 & Hsz2 & Hb2).
    assert (Ha1 : a ∈ agents (schedule m1)).
    { eapply stable_elem; [exact Hst1|]. apply Hin. apply list_elem_of_here. }
    exists m'. split.
    { cbn [for_each]. rewrite (bind_Ok _ _ _ _ _ Hrun1). exact Hrun. }
    split; [exact Hwf'|]. split; [eapply stable_trans; eauto|]. split.
    { intros b Hb Hnot. apply not_elem_of_cons in Hnot as [Hne Hnot].
      rewrite Hframe; [now apply Hreg| eapply stable_elem; eauto | exact Hnot]. }
    split.
    { intros b Hb. apply elem_of_cons in Hb as [-> | Hb].
      - destruct Hself as (o & o1 & Ho & Ho1 & Heff).
        exists o, o1. split; [exact Ho|]. split; [|exact Heff].
        rewrite Hframe; assumption.
      - destruct (Hvis b Hb) as (o & o' & Ho & Ho' & Heff).
        exists o, o'. split.
        + rewrite <- Hreg; [exact Ho| intros ->; contradiction | apply Hin; now apply list_elem_of_further].
        + split; [exact Ho'|]. now rewrite <- (st_environment _ _ Hst1). }
    split.
    { exists (born1 ++ born2). split; [rewrite Hag2, Hag1; now rewrite app_assoc|].
      split; [rewrite length_app; cbn; lia|]. split; [rewrite length_app; lia|].
      intros c Hc. apply elem_of_app in Hc as [Hc | Hc]; [|now apply Hb2].
      destruct (Hb1 c Hc) as (oc & Hoc & Hrest). exists oc. split; [|exact Hrest].
      rewrite Hframe; [exact Hoc| rewrite Hag1; apply elem_of_app; now right |].
      intros Hcl. pose proof (wf_nodup m1 Hwf1) as Hnd1. rewrite Hag1 in Hnd1.
      apply NoDup_app in Hnd1 as (_ & Hdisj & _).
      apply (Hdisj c); [apply Hin; now apply list_elem_of_further | exact Hc]. }
    intros Ht. apply Htidy. eapply tidy_activated; [exact Ht|exact Hact'].
Qed.

End Pass.

Lemma collect_data_pure m d m' : collect_data m = Ok (d, m') -> m' = m.
Proof.
  unfold collect_data. rewrite bind_get. unfold bind, ret.
  destruct (map_m get_agent (agents (schedule m)) m) as [[os m2]|] eqn:Hrec; [|discriminate].
  intros H. injection H as _ <-. now destruct (map_m_get_agent_pure _ _ _ _ Hrec).
Qed.

Lemma visited_ext m m1 m' :
  visited m m1 -> objects m' = objects m1 ->
  agents (schedule m') = agents (schedule m1) -> cells (grid m') = cells (grid m1) ->
  visited m m'.
Proof.
  intros [He Hb Ht] Ho Ha Hc. constructor.
  - intros a Hin. rewrite Ho. now apply He.
  - rewrite Ha, Hc. destruct Hb as (born & H1 & H2 & H3 & H4). exists born.
    split; [exact H1|]. split; [exact H2|]. split; [exact H3|].
    intros c Hin. rewrite Ho. now apply H4.
  - intros Htidy a o. rewrite Ho. now apply Ht.
Qed.

Section Tick.

Variable nbh : SingleGrid -> position -> list position.

Lemma RandomActivation_step_visited m :
  wf m ->
  exists m1, RandomActivation_step nbh m = Ok (tt, m1) /\ visited m m1.
Proof.
  intros Hwf. unfold RandomActivation_step. mrun.
  set (m0 := with_random _ m).
  assert (Hwf0 : wf m0) by (apply (wf_ext m); auto; apply (wf_env m Hwf)).
  destruct (for_each_visits nbh (activation_order m) m0 Hwf0)
    as (m1 & Hrun & _ & _ & _ & Hvis & Hborn & Htidy).
  { unfold activation_order. rewrite shuffle_perm. apply (wf_nodup m Hwf). }
  { intros a Ha. unfold activation_order in Ha. rewrite shuffle_perm in Ha. exact Ha. }
  rewrite (bind_Ok _ _ _ _ _ Hrun). unfold modify.
  eexists. split; [reflexivity|].
  apply (visited_ext m m1); [|reflexivity|reflexivity|reflexivity].
  constructor.
  - intros a Ha. apply Hvis. unfold activation_order. rewrite shuffle_perm. exact Ha.
  - destruct Hborn as (born & H1 & H2 & H3 & H4). exists born.
    split; [exact H1|]. split; [|split; [exact H3|exact H4]].
    unfold activation_order in H2. rewrite shuffle_perm in H2. exact H2.
  - exact Htidy.
Qed.

Lemma Model_step_after_pass m m1 m' :
  RandomActivation_step nbh m = Ok (tt, m1) -> Model_step nbh m = Ok (tt, m') ->
  objects m' = objects m1 /\ agents (schedule m') = agents (schedule m1)
  /\ cells (grid m') = cells (grid m1).
Proof.
  intros Hpass Hstep. unfold Model_step in Hstep.
  rewrite (bind_Ok _ _ _ _ _ Hpass) in Hstep.
  unfold bind at 1 in Hstep. unfold on_environment in Hstep.
  destruct (update_conditions (environment m1) (np_random m1)) as [[e g]|]; [|discriminate].
  rewrite bind_modify in Hstep. unfold bind in Hstep.
  destruct (collect_data _) as [[d m2]|] eqn:Hcol; [|discriminate].
  apply collect_data_pure in Hcol. subst m2.
  unfold modify in Hstep. injection Hstep as <-. auto.
Qed.

Lemma Model_step_visited m :
  wf m ->
  exists m', Model_step nbh m = Ok (tt, m') /\ wf m' /\ visited m m'.
Proof.
  intros Hwf.
  destruct (Model_step_spec nbh m Hwf) as (m' & e' & d & Hrun & Hwf' & _).
  destruct (RandomActivation_step_visited m Hwf) as (m1 & Hpass & Hvis).
  destruct (Model_step_after_pass m m1 m' Hpass Hrun) as (Ho & Ha & Hc).
  exists m'. split; [exact Hrun|]. split; [exact Hwf'|].
  now apply (visited_ext m m1).
Qed.

End Tick.

(** * Further results *)

(** ** Portrayal *)

Lemma color_map_lookup s :
  color_map !! s =
    if decide ("intact" = s) then Some "green"
    else if decide ("encysted" = s) then Some "blue"
    else if decide ("excysted" = s) then Some "lightblue"
    else if decide ("divided" = s) then Some "red"
    else if decide ("stressed" = s) then Some "orange"
    else if decide ("dividing" = s) then Some "yellow"
    else None.
Proof.
  unfold color_map. rewrite !lookup_insert. repeat case_decide; reflexivity.
Qed.

(** X1.  The portrayal of an organism always carries a colour; the colour
    is grey exactly when the state is none of the six the module assigns,
    and for those six the colour determines the state. *)
Theorem portrayal_colour (o1 o2 : Amoeba) :
  exists c,
    agent_portrayal o1 !! "Color" = Some (PStr c) /\
    (c = "grey" <-> state o1 ∉ known_states) /\
    (state o1 ∈ known_states ->
     agent_portrayal o2 !! "Color" = Some (PStr c) -> state o2 = state o1).
Proof.
  exists (default "grey" (color_map !! state o1)).
  split; [apply lookup_insert_eq|].
  unfold agent_portrayal. rewrite lookup_insert_eq.
  destruct o1 as [u1 s1 d1 p1 np1 na1], o2 as [u2 s2 d2 p2 np2 na2]. cbn [state].
  rewrite !color_map_lookup. unfold known_states. rewrite !elem_of_cons, elem_of_nil.
  split.
  - repeat case_decide; subst; cbn [default];
      (split; [try discriminate; intros _ Hx; intuition congruence
              | try reflexivity; intros Hx; exfalso; apply Hx; auto 10]).
  - intros Hk Hc. injection Hc as Hc. revert Hc.
    repeat case_decide; subst; cbn [default]; intros Hc;
      try discriminate Hc; try reflexivity; exfalso; intuition congruence.
Qed.

(** ** Months *)

Lemma increment_month_iter_fields n e :
  water_quality (Nat.iter n increment_month e) = water_quality e /\
  temperature (Nat.iter n increment_month e) = temperature e /\
  temperature_description (Nat.iter n increment_month e) = temperature_description e.
Proof. induction n as [|n IH]; [auto|]. rewrite Nat.iter_succ. exact IH. Qed.

Lemma month_after_range mth n : 1 <= month_after mth n <= 12.
Proof. unfold month_after. pose proof (Z.mod_pos_bound (mth - 1 + Z.of_nat n) 12). lia. Qed.

Lemma month_after_zero mth : 1 <= mth <= 12 -> month_after mth 0 = mth.
Proof. intros H. unfold month_after. rewrite Z.add_0_r, Z.mod_small; lia. Qed.

Lemma month_after_succ mth n :
  month_after mth (S n)
  = if month_after mth n =? 12 then 1 else month_after mth n + 1.
Proof.
  unfold month_after. rewrite Nat2Z.inj_succ.
  destruct (Z.eqb_spec ((mth - 1 + Z.of_nat n) mod 12 + 1) 12) as [E | E];
    Z.div_mod_to_equations; lia.
Qed.

(** X2.  From a month in 1..12, [n] applications of [increment_month] give
    the month [n] steps later in the twelve-month cycle and leave the drawn
    conditions alone. *)
Theorem increment_month_cycle (e : Environment) (n : nat) :
  1 <= month e <= 12 ->
  month (Nat.iter n increment_month e) = month_after (month e) n /\
  1 <= month (Nat.iter n increment_month e) <= 12 /\
  water_quality (Nat.iter n increment_month e) = water_quality e /\
  temperature (Nat.iter n increment_month e) = temperature e /\
  temperature_description (Nat.iter n increment_month e) = temperature_description e.
Proof.
  intros H.
  assert (Hm : month (Nat.iter n increment_month e) = month_after (month e) n).
  { induction n as [|n IH]; [now rewrite month_after_zero|].
    rewrite Nat.iter_succ. unfold increment_month at 1. cbn [month].
    rewrite IH. now rewrite month_after_succ. }
  split; [exact Hm|]. split; [rewrite Hm; apply month_after_range|].
  apply increment_month_iter_fields.
Qed.

(** X3.  A stored month above 12 is never brought back into the calendar:
    every further increment adds one. *)
Theorem increment_month_never_wraps_above_twelve (e : Environment) (n : nat) :
  12 < month e ->
  month (Nat.iter n increment_month e) = month e + Z.of_nat n.
Proof.
  intros H. induction n as [|n IH]; [cbn; lia|].
  rewrite Nat.iter_succ. unfold increment_month at 1. cbn [month]. rewrite IH.
  destruct (Z.eqb_spec (month e + Z.of_nat n) 12); lia.
Qed.

(** X4.  After [update_conditions] the season alone decides the predicates:
    the division (and excystment) predicate holds exactly when the month is
    none of 12, 1, 2, 6, 7, 8, the water-quality test never makes a
    difference, and every month outside 1..12 counts as favourable. *)
Theorem season_decides (e : Environment) (g : Rng) :
  exists e' g',
    update_conditions e g = Ok (e', g') /\
    month e' = month e /\
    is_div_condition e'
      = negb (in_list (month e) [12; 1; 2] || in_list (month e) [6; 7; 8]) /\
    is_encystment_condition e'
      = (in_list (month e) [12; 1; 2] || in_list (month e) [6; 7; 8]) /\
    (month e < 1 \/ 12 < month e -> is_div_condition e' = true).
Proof.
  destruct (update_conditions_spec e g) as (e' & Hrun & Hmonth & Htab).
  exists e', (mkRng (tape g) (S (S (cursor g)))).
  split; [exact Hrun|]. split; [exact Hmonth|].
  assert (Hdiv : is_div_condition e'
                 = negb (in_list (month e) [12; 1; 2] || in_list (month e) [6; 7; 8])).
  { unfold spec_table in Htab. unfold is_div_condition.
    destruct (in_list (month e) [12; 1; 2]); [|destruct (in_list (month e) [6; 7; 8])];
      destruct Htab as (Hw & _ & ->); cbn;
      destruct (Z.leb_spec 50 (water_quality e')); try reflexivity; lia. }
  split; [exact Hdiv|]. split.
  - rewrite (encystment_negates_division e' (spec_table_known _ _ Htab)), Hdiv.
    now rewrite negb_involutive.
  - intros Hout. rewrite Hdiv. unfold in_list. cbn [existsb].
    repeat match goal with |- context [(?a =? ?b)] => destruct (Z.eqb_spec a b); [lia|] end.
    reflexivity.
Qed.

(** ** [reset_model] *)

(** X5.  Whatever integer is entered, [reset_model] on a grid of width and
    height at least 2 returns a model whose month is the entry clamped into
    1..12, with conditions drawn for that month. *)
Theorem reset_model_clamps (w h entered : Z) (rnd np : Rng) :
  2 <= w -> 2 <= h ->
  exists m,
    reset_model w h entered rnd np = Ok (tt, m) /\
    1 <= month (environment m) <= 12 /\
    (1 <= entered <= 12 -> month (environment m) = entered) /\
    (entered < 1 -> month (environment m) = 1) /\
    (12 < entered -> month (environment m) = 12) /\
    spec_table (month (environment m)) (environment m).
Proof.
  intros Hw Hh. unfold reset_model. cbv zeta.
  destruct (Model_init_spec w h (Z.max 1 (Z.min 12 entered)) rnd np Hw Hh)
    as (env & x & y & Hrun & _ & _ & _ & _ & Hm & Htab).
  eexists. split; [exact Hrun|]. cbn [environment]. rewrite Hm.
  repeat split; try lia. exact Htab.
Qed.

(** ** Counting states *)

Lemma count_state_app s l1 l2 :
  count_state s (l1 ++ l2) = (count_state s l1 + count_state s l2)%nat.
Proof. unfold count_state. now rewrite List.filter_app, length_app. Qed.

Lemma count_post sts :
  Forall (fun s => s ∈ post_states) sts ->
  count_state "intact" sts = 0%nat /\ count_state "excysted" sts = 0%nat /\
  (count_state "encysted" sts + count_state "dividing" sts + count_state "divided" sts
   + count_state "stressed" sts = length sts)%nat.
Proof.
  unfold count_state. induction 1 as [|s sts Hs _ IH]; [auto|].
  unfold post_states in Hs. rewrite !elem_of_cons, elem_of_nil in Hs.
  destruct Hs as [-> | [-> | [-> | [-> | []]]]]; cbn; lia.
Qed.

Lemma count_newborn sts :
  Forall (fun s => s = "intact") sts ->
  count_state "intact" sts = length sts /\ count_state "excysted" sts = 0%nat /\
  (count_state "encysted" sts + count_state "dividing" sts + count_state "divided" sts
   + count_state "stressed" sts = 0)%nat.
Proof.
  unfold count_state. induction 1 as [|s sts Hs _ IH]; [auto|].
  subst s. cbn. lia.
Qed.

Lemma collect_data_inv m d m' :
  collect_data m = Ok (d, m') ->
  exists os,
    Forall2 (fun a o => objects m !! a = Some o) (agents (schedule m)) os /\
    d = mkData (steps (schedule m))
          (count_state "intact" (map state os)) (count_state "dividing" (map state os))
          (count_state "divided" (map state os)) (count_state "encysted" (map state os))
          (count_state "excysted" (map state os)) (count_state "stressed" (map state os))
          (water_quality (environment m)) (temperature (environment m))
          (month (environment m)).
Proof.
  unfold collect_data. rewrite bind_get. unfold bind, ret.
  destruct (map_m get_agent (agents (schedule m)) m) as [[os m2]|] eqn:Hrec; [|discriminate].
  intros H. injection H as <- _. exists os. split; [|reflexivity].
  now destruct (map_m_get_agent_pure _ _ _ _ Hrec).
Qed.

Section Census.

Variable nbh : SingleGrid -> position -> list position.

(** The record a tick appends is computed from the state the tick leaves. *)
Lemma Model_step_record m m' :
  Model_step nbh m = Ok (tt, m') ->
  exists d os log,
    data_collector m' = log ++ [d] /\
    Forall2 (fun a o => objects m' !! a = Some o) (agents (schedule m')) os /\
    d = mkData (steps (schedule m'))
          (count_state "intact" (map state os)) (count_state "dividing" (map state os))
          (count_state "divided" (map state os)) (count_state "encysted" (map state os))
          (count_state "excysted" (map state os)) (count_state "stressed" (map state os))
          (water_quality (environment m')) (temperature (environment m'))
          (month (environment m')).
Proof.
  intros Hstep. unfold Model_step in Hstep.
  unfold bind at 1 in Hstep.
  destruct (RandomActivation_step nbh m) as [[[] m1]|]; [|discriminate].
  unfold bind at 1 in Hstep. unfold on_environment in Hstep.
  destruct (update_conditions (environment m1) (np_random m1)) as [[e g]|]; [|discriminate].
  rewrite bind_modify in Hstep. unfold bind in Hstep.
  destruct (collect_data _) as [[d m2]|] eqn:Hcol; [|discriminate].
  pose proof (collect_data_pure _ _ _ Hcol). subst m2.
  destruct (collect_data_inv _ _ _ Hcol) as (os & HF & Hd).
  unfold modify in Hstep. injection Hstep as <-.
  exists d, os, (data_collector m1). split; [reflexivity|]. split; [exact HF|exact Hd].
Qed.

(** One tick, summarised: who was visited, who was born, and what the
    appended record counts. *)
Lemma tick_summary m :
  wf m ->
  exists m' d born,
    Model_step nbh m = Ok (tt, m') /\ wf m' /\ visited m m' /\
    data_collector m' = data_collector m ++ [d] /\
    agents (schedule m') = agents (schedule m) ++ born /\
    (length born <= length (agents (schedule m)))%nat /\
    size (cells (grid m')) = (size (cells (grid m)) + length born)%nat /\
    d_intact d = length born /\ d_excysted d = 0%nat /\
    (d_encysted d + d_dividing d + d_divided d + d_stressed d
     = length (agents (schedule m)))%nat.
Proof.
  intros Hwf.
  destruct (Model_step_visited nbh m Hwf) as (m' & Hrun & Hwf' & Hvis).
  destruct (Model_step_spec nbh m Hwf)
    as (m2 & e' & d & Hrun2 & _ & _ & _ & Hdc & _).
  rewrite Hrun in Hrun2. injection Hrun2 as <-.
  destruct (Model_step_record m m' Hrun) as (d2 & os & log & Hlog & HF & Hd).
  rewrite Hdc in Hlog. apply app_inj_tail in Hlog as [_ <-].
  pose proof Hvis as [Heach (born & Hag & Hlen & Hsz & Hnew) _].
  exists m', d, born. split; [exact Hrun|]. split; [exact Hwf'|]. split; [exact Hvis|].
  split; [exact Hdc|]. split; [exact Hag|]. split; [exact Hlen|]. split; [exact Hsz|].
  rewrite Hag in HF. apply Forall2_app_inv_l in HF as (os1 & os2 & HF1 & HF2 & ->).
  assert (H1 : Forall (fun s => s ∈ post_states) (map state os1)).
  { apply Forall_forall. intros s Hs. apply list_elem_of_In, in_map_iff in Hs as (o & <- & Ho).
    apply list_elem_of_In in Ho.
    destruct (proj1 (list_elem_of_lookup _ _) Ho) as [i Hi].
    destruct (Forall2_lookup_r _ _ _ _ _ HF1 Hi) as (a & Ha & Hobj).
    destruct (Heach a) as (o0 & o' & _ & Ho' & Heff).
    { apply list_elem_of_lookup. eauto. }
    rewrite Hobj in Ho'. injection Ho' as <-. apply (eff_state _ _ _ Heff). }
  assert (H2 : Forall (fun s => s = "intact") (map state os2)).
  { apply Forall_forall. intros s Hs. apply list_elem_of_In, in_map_iff in Hs as (o & <- & Ho).
    apply list_elem_of_In in Ho.
    destruct (proj1 (list_elem_of_lookup _ _) Ho) as [i Hi].
    destruct (Forall2_lookup_r _ _ _ _ _ HF2 Hi) as (c & Hc & Hobj).
    destruct (Hnew c) as (oc & Hoc & Hst & _).
    { apply list_elem_of_lookup. eauto. }
    rewrite Hobj in Hoc. injection Hoc as <-. exact Hst. }
  destruct (count_post _ H1) as (Hi1 & He1 & Hp1).
  destruct (count_newborn _ H2) as (Hi2 & He2 & Hp2).
  rewrite Hd. cbn [d_intact d_excysted d_encysted d_dividing d_divided d_stressed].
  rewrite map_app, !count_state_app.
  rewrite length_map in Hi2, Hp1.
  pose proof (Forall2_length _ _ _ HF1). pose proof (Forall2_length _ _ _ HF2).
  repeat split; lia.
Qed.

End Census.

Lemma filter_nonempty {A} (f : A -> bool) l x :
  In x l -> f x = true -> List.filter f l <> [].
Proof.
  intros Hin Hf E. assert (Hx : In x (List.filter f l)) by (apply filter_In; auto).
  rewrite E in Hx. exact Hx.
Qed.

Lemma month_after_add mth a b :
  month_after (month_after mth a) b = month_after mth (a + b).
Proof.
  unfold month_after. rewrite Nat2Z.inj_add.
  replace ((mth - 1 + Z.of_nat a) mod 12 + 1 - 1 + Z.of_nat b)
    with ((mth - 1 + Z.of_nat a) mod 12 + Z.of_nat b) by lia.
  rewrite Z.add_mod_idemp_l by lia. f_equal. f_equal. lia.
Qed.

Section Runs.

Variable nbh : SingleGrid -> position -> list position.

Lemma reachable_invariants m :
  reachable nbh m ->
  tidy m /\
  Forall (fun d => d_excysted d = 0%nat) (data_collector m) /\
  size (cells (grid m)) = length (agents (schedule m)) /\
  steps (schedule m) = Z.of_nat (length (data_collector m)) /\
  (forall i d, data_collector m !! i = Some d -> d_step d = Z.of_nat (S i)).
Proof.
  induction 1 as [w h mth rnd np m Hinit | m m' Hr IH Hstep].
  - destruct (Model_init_bounds _ _ _ _ _ _ Hinit) as [Hw Hh].
    destruct (Model_init_spec w h mth rnd np Hw Hh) as (env & x & y & Hspec & _).
    rewrite Hspec in Hinit. injection Hinit as <-.
    cbn [objects data_collector grid cells schedule agents steps].
    split.
    { intros a o Ho. apply list_lookup_singleton_Some in Ho as (_ & <-). cbn.
      split; [discriminate|]. split; discriminate. }
    split; [constructor|].
    split; [rewrite map_size_insert_None by apply lookup_empty; now rewrite map_size_empty|].
    split; [reflexivity|]. intros i d Hd. destruct i; discriminate Hd.
  - destruct IH as (Ht & Hlog & Hsz & Hsteps & Hidx).
    pose proof (reachable_wf nbh m Hr) as Hwf.
    destruct (tick_summary nbh m Hwf)
      as (m2 & d & born & Hrun & _ & Hvis & Hdc & Hag & _ & Hsz' & _ & Hex & _).
    rewrite Hrun in Hstep. injection Hstep as <-.
    destruct (Model_step_spec nbh m Hwf)
      as (m3 & e' & d3 & Hrun3 & _ & _ & _ & Hdc3 & _ & Hdstep & _ & _ & _ & Hsteps3 & _).
    rewrite Hrun in Hrun3. injection Hrun3 as <-.
    rewrite Hdc in Hdc3. apply app_inj_tail in Hdc3 as [_ <-].
    split; [apply (vis_tidy _ _ Hvis Ht)|].
    split; [rewrite Hdc; apply Forall_app; split; [exact Hlog|repeat constructor; exact Hex]|].
    split; [rewrite Hsz', Hag, length_app; lia|].
    split; [rewrite Hsteps3, Hdc, length_app, Hsteps; cbn; lia|].
    intros i d' Hd'. rewrite Hdc in Hd'. apply lookup_snoc_Some in Hd' as [(_ & Hd') | (-> & <-)].
    + now apply Hidx.
    + rewrite Hdstep, Hsteps3, Hsteps. lia.
Qed.

(** X6.  Activating a registered organism returns and touches nothing but
    that organism and, when a division is committed, its child: every other
    registered organism is unchanged, the organism itself keeps its cell and
    identifier, at most one organism is added to the registry, and the
    environment, the metrics log and numpy's generator are as before. *)
Theorem activation_frame (m : AmoebaDivisionModel) (self : nat) :
  wf m -> self ∈ agents (schedule m) ->
  exists m',
    Amoeba_step nbh self m = Ok (tt, m') /\
    (forall b, b <> self -> b ∈ agents (schedule m) -> objects m' !! b = objects m !! b) /\
    (exists o o', objects m !! self = Some o /\ objects m' !! self = Some o'
                  /\ pos o' = pos o /\ unique_id o' = unique_id o) /\
    (exists born, agents (schedule m') = agents (schedule m) ++ born
                  /\ (length born <= 1)%nat) /\
    environment m' = environment m /\ data_collector m' = data_collector m /\
    np_random m' = np_random m.
Proof.
  intros Hwf Hself.
  destruct (Amoeba_step_full nbh m self Hwf Hself) as (m' & Hrun & _ & Hst & Hact).
  destruct Hact as [(o & o' & Ho & Ho' & Heff) Hreg _ (born & Hag & Hlen & _)].
  exists m'. split; [exact Hrun|]. split; [exact Hreg|]. split.
  { exists o, o'. repeat split; try assumption; apply Heff. }
  split; [eauto|]. destruct Hst. auto.
Qed.

(** X7.  An activation leaves the organism encysted, dividing, divided or
    stressed, never intact or excysted; a division is pending afterwards
    exactly when the state is dividing; a division that was pending is
    resolved to divided or stressed; under the encystment condition an
    organism without a pending division ends encysted, and without that
    condition no organism ends encysted. *)
Theorem activation_end_state (m : AmoebaDivisionModel) (self : nat) :
  wf m -> self ∈ agents (schedule m) ->
  exists m' o o',
    Amoeba_step nbh self m = Ok (tt, m') /\
    objects m !! self = Some o /\ objects m' !! self = Some o' /\
    state o' ∈ post_states /\
    (dividing_next_step o' = true <-> state o' = "dividing") /\
    (dividing_next_step o = true ->
     dividing_next_step o' = false /\ (state o' = "divided" \/ state o' = "stressed")) /\
    (is_encystment_condition (environment m) = true -> dividing_next_step o = false ->
     state o' = "encysted") /\
    (is_encystment_condition (environment m) = false -> state o' <> "encysted").
Proof.
  intros Hwf Hself.
  destruct (Amoeba_step_full nbh m self Hwf Hself) as (m' & Hrun & _ & _ & Hact).
  destruct Hact as [(o & o' & Ho & Ho' & Heff) _ _ _].
  exists m', o, o'. split; [exact Hrun|]. split; [exact Ho|]. split; [exact Ho'|].
  destruct Heff. auto 10.
Qed.

(** X8.  A placed organism without a pending division, activated when the
    encystment condition does not hold and some cell of its neighbourhood
    is empty, initiates a division: it ends dividing with the flag set, the
    recorded target is an empty cell of the neighbourhood, the recorded
    child is a new object in state intact that is neither placed nor
    registered, and grid and registry are unchanged. *)
Theorem division_initiated (m : AmoebaDivisionModel) (self : nat) (o : Amoeba)
    (xy q : position) :
  objects m !! self = Some o -> pos o = Some xy ->
  dividing_next_step o = false ->
  temperature_description (environment m) ∈ known_descriptions ->
  is_encystment_condition (environment m) = false ->
  q ∈ nbh (grid m) xy -> is_cell_empty (grid m) q = true ->
  exists m' o' target,
    Amoeba_step nbh self m = Ok (tt, m') /\
    objects m' !! self = Some o' /\
    state o' = "dividing" /\ dividing_next_step o' = true /\
    new_position o' = Some target /\
    target ∈ nbh (grid m) xy /\ is_cell_empty (grid m) target = true /\
    new_amoeba o' = Some (length (objects m)) /\
    objects m' !! length (objects m)
      = Some (mkAmoeba (current_id m + 1) "intact" false None None None) /\
    length (objects m') = S (length (objects m)) /\
    grid m' = grid m /\ schedule m' = schedule m.
Proof.
  intros Ho Hpos Hd Hk Hfav Hq Hemp.
  assert (Hdiv : is_div_condition (environment m) = true).
  { rewrite (encystment_negates_division _ Hk) in Hfav.
    now destruct (is_div_condition (environment m)). }
  rewrite (Amoeba_step_unfold nbh m self o Ho). cbv zeta.
  unfold division_gate. rewrite Hdiv, orb_true_r. cbn [orb].
  set (o1 := dormancy (environment m) o).
  destruct (List.filter (is_cell_empty (grid m)) (nbh (grid m) xy)) as [|q0 qs] eqn:Hf.
  { exfalso. eapply filter_nonempty; [apply list_elem_of_In; exact Hq|exact Hemp|exact Hf]. }
  destruct (initiate_ok nbh (with_objects (<[self := o1]> (objects m)) m) self o1 xy q0 qs)
    as (target & Ht & Hrun).
  { proj. lk. reflexivity. }
  { subst o1. now rewrite dormancy_dividing. }
  { exact Hdiv. }
  { subst o1. now rewrite dormancy_pos. }
  { exact Hf. }
  rewrite Hrun. proj_all.
  assert (Hin : In target (List.filter (is_cell_empty (grid m)) (nbh (grid m) xy))).
  { rewrite Hf. apply list_elem_of_In. apply list_elem_of_lookup. eauto. }
  apply filter_In in Hin as [Hin Hte].
  eexists _, _, target. split; [reflexivity|]. proj.
  split; [lk; reflexivity|]. cbn [state dividing_next_step new_position new_amoeba].
  split; [reflexivity|]. split; [reflexivity|]. split; [reflexivity|].
  split; [apply list_elem_of_In; exact Hin|]. split; [exact Hte|].
  rewrite length_insert. split; [reflexivity|]. split.
  { rewrite list_insert_insert_eq.
    rewrite lookup_app_r by (rewrite length_insert; lia).
    rewrite length_insert, Nat.sub_diag. reflexivity. }
  split; [rewrite length_app, !length_insert; cbn; lia|]. split; reflexivity.
Qed.

End Runs.

Lemma bind_ext {S A B} (c : M S A) (k1 k2 : A -> M S B) s :
  (forall a s', k1 a s' = k2 a s') -> bind c k1 s = bind c k2 s.
Proof. intros H. unfold bind. destruct (c s) as [[a s']|e]; [apply H|reflexivity]. Qed.

Section Lifecycle.

Variable nbh : SingleGrid -> position -> list position.

(** X9.  One tick, seen from the organisms: each organism registered when
    the tick starts keeps its cell and ends encysted, dividing, divided or
    stressed; a division pending at the start is resolved within the tick;
    in a tick under the encystment condition nobody is left with a pending
    division and whoever had none ends encysted, while without that condition
    nobody ends encysted; the organisms registered during the tick are
    intact, placed, and have no division pending. *)
Theorem tick_lifecycle (m : AmoebaDivisionModel) :
  reachable nbh m ->
  exists m',
    Model_step nbh m = Ok (tt, m') /\
    (forall a o, a ∈ agents (schedule m) -> objects m !! a = Some o ->
       exists o', objects m' !! a = Some o' /\ pos o' = pos o /\
         state o' ∈ post_states /\
         (dividing_next_step o = true ->
          dividing_next_step o' = false /\ (state o' = "divided" \/ state o' = "stressed")) /\
         (is_encystment_condition (environment m) = true ->
          dividing_next_step o' = false /\
          (dividing_next_step o = false -> state o' = "encysted")) /\
         (is_encystment_condition (environment m) = false -> state o' <> "encysted")) /\
    (forall c, c ∈ agents (schedule m') -> c ∉ agents (schedule m) ->
       exists oc, objects m' !! c = Some oc /\ state oc = "intact"
                  /\ dividing_next_step oc = false /\ is_Some (pos oc)).
Proof.
  intros Hr. pose proof (reachable_wf nbh m Hr) as Hwf.
  destruct (Model_step_visited nbh m Hwf) as (m' & Hrun & _ & [Heach Hborn _]).
  exists m'. split; [exact Hrun|]. split.
  - intros a o Ha Ho. destruct (Heach a Ha) as (o0 & o' & Ho0 & Ho' & Heff).
    rewrite Ho in Ho0. injection Ho0 as <-.
    exists o'. split; [exact Ho'|]. destruct Heff as [Hp _ Hs Hf Hc Hadv Hfav].
    split; [exact Hp|]. split; [exact Hs|]. split; [exact Hc|]. split; [|exact Hfav].
    intros Henc. destruct (dividing_next_step o) eqn:Hd.
    + split; [apply Hc; reflexivity|discriminate].
    + specialize (Hadv Henc eq_refl). split; [|auto].
      destruct (dividing_next_step o') eqn:Hd'; [|reflexivity].
      pose proof (proj1 Hf eq_refl). congruence.
  - destruct Hborn as (born & Hag & _ & _ & Hnew). intros c Hc Hnot. apply Hnew.
    rewrite Hag in Hc. apply elem_of_app in Hc as [Hc | Hc]; [contradiction|exact Hc].
Qed.

(** X10.  In every reachable state no organism in the store is excysted,
    a division is pending exactly for the organisms in state dividing, and
    every record of the metrics log counts zero excysted organisms. *)
Theorem never_excysted (m : AmoebaDivisionModel) :
  reachable nbh m ->
  (forall a o, objects m !! a = Some o ->
     state o <> "excysted" /\ (dividing_next_step o = true <-> state o = "dividing")) /\
  (forall d, d ∈ data_collector m -> d_excysted d = 0%nat).
Proof.
  intros Hr. destruct (reachable_invariants nbh m Hr) as (Ht & Hlog & _).
  split; [exact Ht|]. intros d Hd. rewrite Forall_forall in Hlog. now apply Hlog.
Qed.

(** X11.  In every reachable state the number of occupied cells equals the
    number of registered organisms; a tick never shrinks the registry and at
    most doubles it, and the occupied cells grow by the same number. *)
Theorem population_census (m : AmoebaDivisionModel) :
  reachable nbh m ->
  size (cells (grid m)) = length (agents (schedule m)) /\
  exists m',
    Model_step nbh m = Ok (tt, m') /\
    (length (agents (schedule m)) <= length (agents (schedule m')))%nat /\
    (length (agents (schedule m')) <= 2 * length (agents (schedule m)))%nat /\
    size (cells (grid m')) = length (agents (schedule m')).
Proof.
  intros Hr. destruct (reachable_invariants nbh m Hr) as (_ & _ & Hsz & _).
  split; [exact Hsz|].
  destruct (tick_summary nbh m (reachable_wf nbh m Hr))
    as (m' & d & born & Hrun & _ & _ & _ & Hag & Hlen & Hsz' & _).
  exists m'. split; [exact Hrun|]. rewrite Hag, length_app, Hsz'. lia.
Qed.

(** X12.  In the record a tick appends, the intact count is the number of
    organisms registered during that tick, the excysted count is zero, and
    the encysted, dividing, divided and stressed counts add up to the number
    of organisms registered when the tick started. *)
Theorem metrics_intact_are_newborn (m : AmoebaDivisionModel) :
  reachable nbh m ->
  exists m' d born,
    Model_step nbh m = Ok (tt, m') /\
    data_collector m' = data_collector m ++ [d] /\
    agents (schedule m') = agents (schedule m) ++ born /\
    d_intact d = length born /\ d_excysted d = 0%nat /\
    (d_encysted d + d_dividing d + d_divided d + d_stressed d
     = length (agents (schedule m)))%nat.
Proof.
  intros Hr.
  destruct (tick_summary nbh m (reachable_wf nbh m Hr))
    as (m' & d & born & Hrun & _ & _ & Hdc & Hag & _ & _ & Hi & He & Hp).
  exists m', d, born. auto 10.
Qed.

(** X13.  In every reachable state the metrics log has one record per
    completed scheduler pass, and the record at index i carries step i + 1. *)
Theorem log_indices (m : AmoebaDivisionModel) :
  reachable nbh m ->
  steps (schedule m) = Z.of_nat (length (data_collector m)) /\
  forall i d, data_collector m !! i = Some d -> d_step d = Z.of_nat i + 1.
Proof.
  intros Hr. destruct (reachable_invariants nbh m Hr) as (_ & _ & _ & Hsteps & Hidx).
  split; [exact Hsteps|]. intros i d Hd. rewrite (Hidx i d Hd). lia.
Qed.

(** X14.  Running [a + b] ticks is running [a] ticks and then [b] ticks,
    errors included. *)
Theorem run_simulation_add (a b : nat) (m : AmoebaDivisionModel) :
  run_simulation nbh (a + b) m
  = (run_simulation nbh a ;;; run_simulation nbh b) m.
Proof.
  revert m. induction a as [|a IH]; intros m; [reflexivity|].
  cbn [Nat.add run_simulation]. rewrite bind_assoc.
  apply bind_ext. intros _ m1. apply IH.
Qed.

(** X15.  From a reachable state, [run_simulation] for any number of ticks
    returns a reachable state; it appends exactly one record per tick to the
    log and keeps the earlier records, advances the pass counter by the
    number of ticks, only ever appends to the registry, never empties a cell,
    and leaves every organism in the cell it was in. *)
Theorem run_simulation_returns (n : nat) (m : AmoebaDivisionModel) :
  reachable nbh m ->
  exists m' recs born,
    run_simulation nbh n m = Ok (tt, m') /\ reachable nbh m' /\
    data_collector m' = data_collector m ++ recs /\ length recs = n /\
    steps (schedule m') = steps (schedule m) + Z.of_nat n /\
    agents (schedule m') = agents (schedule m) ++ born /\
    (forall p a, cells (grid m) !! p = Some a -> cells (grid m') !! p = Some a) /\
    (forall a o, a ∈ agents (schedule m) -> objects m !! a = Some o ->
       exists o', objects m' !! a = Some o' /\ pos o' = pos o
                  /\ unique_id o' = unique_id o).
Proof.
  revert m. induction n as [|n IH]; intros m Hr.
  - exists m, [], []. rewrite !app_nil_r, Z.add_0_r.
    repeat (split; [first [reflexivity | assumption | auto]|]). eauto.
  - pose proof (reachable_wf nbh m Hr) as Hwf.
    destruct (Model_step_spec nbh m Hwf)
      as (m1 & e' & d & Hrun & _ & _ & _ & Hdc & _ & _ & _ & _ & _ & Hsteps & (b1 & Hag) & Hcells).
    destruct (Model_step_visited nbh m Hwf) as (m1' & Hrun' & _ & [Heach _ _]).
    rewrite Hrun in Hrun'. injection Hrun' as <-.
    assert (Hr1 : reachable nbh m1) by (eapply reachable_step; eauto).
    destruct (IH m1 Hr1) as (m' & recs & b2 & Hrun2 & Hr' & Hdc2 & Hlen & Hsteps2 & Hag2 & Hcells2 & Hpos2).
    exists m', (d :: recs), (b1 ++ b2). split.
    { cbn [run_simulation]. rewrite (bind_Ok _ _ _ _ _ Hrun). exact Hrun2. }
    split; [exact Hr'|]. split; [rewrite Hdc2, Hdc, <- app_assoc; reflexivity|].
    split; [cbn; lia|]. split; [lia|]. split; [rewrite Hag2, Hag, app_assoc; reflexivity|].
    split; [auto|].
    intros a o Ha Ho. destruct (Heach a Ha) as (o0 & o1 & Ho0 & Ho1 & Heff).
    rewrite Ho in Ho0. injection Ho0 as <-.
    destruct (Hpos2 a o1) as (o' & Ho' & Hp & Hu); [rewrite Hag; apply elem_of_app; now left|exact Ho1|].
    exists o'. split; [exact Ho'|]. destruct Heff as [Hp1 Hu1 _ _ _ _ _]. split; congruence.
Qed.

End Lifecycle.

(** ** The calendar of a run *)

Lemma spec_table_favourable mth e :
  in_list mth [12; 1; 2] = false -> in_list mth [6; 7; 8] = false ->
  spec_table mth e ->
  is_div_condition e = true /\ is_encystment_condition e = false.
Proof.
  intros Hw Hs Htab. pose proof (spec_table_known _ _ Htab) as Hk.
  unfold spec_table in Htab. rewrite Hw, Hs in Htab. destruct Htab as (Hq & _ & Hd).
  assert (Hdiv : is_div_condition e = true).
  { unfold is_div_condition. rewrite Hd. destruct (Z.leb_spec 50 (water_quality e)); [reflexivity|lia]. }
  split; [exact Hdiv|]. now rewrite (encystment_negates_division e Hk), Hdiv.
Qed.

Lemma above_twelve_out_of_season mth :
  12 < mth -> in_list mth [12; 1; 2] = false /\ in_list mth [6; 7; 8] = false.
Proof.
  intros H. unfold in_list. cbn [existsb].
  repeat match goal with |- context [(?a =? ?b)] => destruct (Z.eqb_spec a b); [lia|] end.
  split; reflexivity.
Qed.

Section Calendar.

Variable nbh : SingleGrid -> position -> list position.

Lemma tick_month m :
  wf m ->
  exists m' d,
    Model_step nbh m = Ok (tt, m') /\
    month (environment m')
      = (if month (environment m) =? 12 then 1 else month (environment m) + 1) /\
    spec_table (month (environment m)) (environment m') /\
    data_collector m' = data_collector m ++ [d] /\
    d_month d = month (environment m').
Proof.
  intros Hwf.
  destruct (Model_step_spec nbh m Hwf)
    as (m' & e' & d & Hrun & _ & Hupd & Henv & Hdc & _ & _ & _ & _ & Hdm & _).
  destruct (update_conditions_spec (environment m) (np_random m)) as (e2 & Hupd2 & Hmonth & Htab).
  rewrite Hupd in Hupd2. injection Hupd2 as <-.
  exists m', d. split; [exact Hrun|]. rewrite Henv.
  split; [cbn [increment_month month]; now rewrite Hmonth|].
  split; [now apply spec_table_increment|]. split; [exact Hdc|]. now rewrite Hdm, Henv.
Qed.

(** X16.  From a reachable state whose month is in 1..12, a run of [n]
    ticks returns with the month [n] steps later in the twelve-month cycle,
    and the i-th record it appends carries the month i + 1 steps later. *)
Theorem calendar_of_a_run (n : nat) (m : AmoebaDivisionModel) :
  reachable nbh m -> 1 <= month (environment m) <= 12 ->
  exists m' recs,
    run_simulation nbh n m = Ok (tt, m') /\
    month (environment m') = month_after (month (environment m)) n /\
    data_collector m' = data_collector m ++ recs /\ length recs = n /\
    forall i d, recs !! i = Some d -> d_month d = month_after (month (environment m)) (S i).
Proof.
  revert m. induction n as [|n IH]; intros m Hr Hm.
  - exists m, []. split; [reflexivity|]. split; [now rewrite month_after_zero|].
    split; [now rewrite app_nil_r|]. split; [reflexivity|]. intros i d Hd. destruct i; discriminate.
  - destruct (tick_month m (reachable_wf nbh m Hr)) as (m1 & d & Hrun & Hmonth & _ & Hdc & Hdm).
    assert (Hm1 : month (environment m1) = month_after (month (environment m)) 1).
    { rewrite Hmonth, month_after_succ, month_after_zero by exact Hm. reflexivity. }
    assert (Hr1 : reachable nbh m1) by (eapply reachable_step; eauto).
    destruct (IH m1 Hr1) as (m' & recs & Hrun2 & Hmonth2 & Hdc2 & Hlen & Hrecs).
    { rewrite Hm1. apply month_after_range. }
    exists m', (d :: recs). split.
    { cbn [run_simulation]. rewrite (bind_Ok _ _ _ _ _ Hrun). exact Hrun2. }
    split; [rewrite Hmonth2, Hm1, month_after_add; reflexivity|].
    split; [rewrite Hdc2, Hdc, <- app_assoc; reflexivity|]. split; [cbn; lia|].
    intros i d' Hd'. destruct i as [|i].
    + injection Hd' as <-. now rewrite Hdm.
    + cbn in Hd'. rewrite (Hrecs i d' Hd'), Hm1, month_after_add. reflexivity.
Qed.

Lemma run_above_twelve n : forall m,
  reachable nbh m -> 12 < month (environment m) ->
  is_div_condition (environment m) = true ->
  exists m',
    run_simulation nbh n m = Ok (tt, m') /\
    month (environment m') = month (environment m) + Z.of_nat n /\
    is_div_condition (environment m') = true /\
    is_encystment_condition (environment m') = false.
Proof.
  induction n as [|n IH]; intros m Hr Hm Hdiv.
  - exists m. split; [reflexivity|]. split; [lia|]. split; [exact Hdiv|].
    rewrite (encystment_negates_division _ (wf_env m (reachable_wf nbh m Hr))), Hdiv. reflexivity.
  - destruct (tick_month m (reachable_wf nbh m Hr)) as (m1 & d & Hrun & Hmonth & Htab & _).
    destruct (Z.eqb_spec (month (environment m)) 12) as [E | _]; [lia|].
    destruct (above_twelve_out_of_season _ Hm) as [Hw Hs].
    destruct (spec_table_favourable _ _ Hw Hs Htab) as [Hdiv1 _].
    assert (Hr1 : reachable nbh m1) by (eapply reachable_step; eauto).
    destruct (IH m1 Hr1) as (m' & Hrun2 & Hmonth2 & Hdiv2 & Henc2); [lia|exact Hdiv1|].
    exists m'. split.
    { cbn [run_simulation]. rewrite (bind_Ok _ _ _ _ _ Hrun). exact Hrun2. }
    split; [lia|]. auto.
Qed.

(** X17.  A model constructed with a month above 12 never enters the
    calendar: after [n] ticks the stored month is the initial one plus [n],
    and at every tick boundary the division condition holds and the
    encystment condition does not. *)
Theorem calendar_above_twelve (w h mth : Z) (rnd np : Rng) (m : AmoebaDivisionModel)
    (n : nat) :
  Model_init w h mth rnd np = Ok (tt, m) -> 12 < mth ->
  exists m',
    run_simulation nbh n m = Ok (tt, m') /\
    month (environment m') = mth + Z.of_nat n /\
    is_div_condition (environment m') = true /\
    is_encystment_condition (environment m') = false.
Proof.
  intros Hinit Hm.
  destruct (Model_init_bounds _ _ _ _ _ _ Hinit) as [Hw Hh].
  destruct (Model_init_spec w h mth rnd np Hw Hh)
    as (env & x & y & Hspec & _ & _ & _ & _ & Hmonth & Htab).
  pose proof (reachable_init nbh _ _ _ _ _ _ Hinit) as Hr.
  rewrite Hspec in Hinit. injection Hinit as <-.
  destruct (above_twelve_out_of_season _ Hm) as [Hws Hss].
  destruct (spec_table_favourable _ _ Hws Hss Htab) as [Hdiv _].
  destruct (run_above_twelve n _ Hr) as (m' & Hrun & Hmonth' & Hd' & He').
  { cbn [environment]. lia. }
  { exact Hdiv. }
  exists m'. split; [exact Hrun|]. cbn [environment] in Hmonth'. rewrite Hmonth in Hmonth'. auto.
Qed.

End Calendar.

(** ** The further results on the sample runs *)

Lemma spring1_registered : 0%nat ∈ agents (schedule spring1).
Proof. vm_compute. constructor. Qed.

Lemma increment_month_cycle_witness :
  1 <= month (mkEnvironment 11 80 20 "normal") <= 12 /\
  month (Nat.iter 3 increment_month (mkEnvironment 11 80 20 "normal")) = 2.
Proof.
  assert (H : 1 <= month (mkEnvironment 11 80 20 "normal") <= 12) by (cbn; lia).
  split; [exact H|].
  exact (proj1 (increment_month_cycle (mkEnvironment 11 80 20 "normal") 3 H)).
Defined.

Lemma increment_month_never_wraps_witness :
  12 < month (mkEnvironment 13 80 20 "normal") /\
  month (Nat.iter 24 increment_month (mkEnvironment 13 80 20 "normal")) = 13 + Z.of_nat 24.
Proof.
  assert (H : 12 < month (mkEnvironment 13 80 20 "normal")) by (cbn; lia).
  split; [exact H|].
  exact (increment_month_never_wraps_above_twelve (mkEnvironment 13 80 20 "normal") 24 H).
Defined.

Lemma reset_model_clamps_witness :
  2 <= 10 /\
  exists m,
    reset_model 10 10 99 sample_tape sample_tape = Ok (tt, m) /\
    1 <= month (environment m) <= 12 /\
    (1 <= 99 <= 12 -> month (environment m) = 99) /\
    (99 < 1 -> month (environment m) = 1) /\
    (12 < 99 -> month (environment m) = 12) /\
    spec_table (month (environment m)) (environment m).
Proof.
  split; [lia|].
  apply (reset_model_clamps 10 10 99 sample_tape sample_tape); lia.
Defined.

Lemma activation_frame_witness :
  wf spring1 /\ 0%nat ∈ agents (schedule spring1) /\
  exists m',
    Amoeba_step moore_torus 0 spring1 = Ok (tt, m') /\
    (forall b, b <> 0%nat -> b ∈ agents (schedule spring1) ->
       objects m' !! b = objects spring1 !! b) /\
    (exists o o', objects spring1 !! 0%nat = Some o /\ objects m' !! 0%nat = Some o'
                  /\ pos o' = pos o /\ unique_id o' = unique_id o) /\
    (exists born, agents (schedule m') = agents (schedule spring1) ++ born
                  /\ (length born <= 1)%nat) /\
    environment m' = environment spring1 /\ data_collector m' = data_collector spring1 /\
    np_random m' = np_random spring1.
Proof.
  assert (Hwf : wf spring1) by exact (reachable_wf moore_torus spring1 spring1_reachable).
  split; [exact Hwf|]. split; [exact spring1_registered|].
  exact (activation_frame moore_torus spring1 0 Hwf spring1_registered).
Defined.

Lemma activation_end_state_witness :
  wf spring1 /\ 0%nat ∈ agents (schedule spring1) /\
  exists m' o', Amoeba_step moore_torus 0 spring1 = Ok (tt, m') /\
                objects m' !! 0%nat = Some o' /\ state o' ∈ post_states.
Proof.
  assert (Hwf : wf spring1) by exact (reachable_wf moore_torus spring1 spring1_reachable).
  split; [exact Hwf|]. split; [exact spring1_registered|].
  destruct (activation_end_state moore_torus spring1 0 Hwf spring1_registered)
    as (m' & o & o' & Hrun & _ & Ho' & Hs & _).
  exists m', o'. auto.
Defined.

Lemma division_initiated_witness :
  objects spring0 !! 0%nat = Some (mkAmoeba 1 "intact" false (Some (1, 2)) None None) /\
  is_encystment_condition (environment spring0) = false /\
  (0, 2) ∈ moore_torus (grid spring0) (1, 2) /\
  is_cell_empty (grid spring0) (0, 2) = true /\
  exists m' o' target,
    Amoeba_step moore_torus 0 spring0 = Ok (tt, m') /\
    objects m' !! 0%nat = Some o' /\
    state o' = "dividing" /\ dividing_next_step o' = true /\
    new_position o' = Some target /\
    target ∈ moore_torus (grid spring0) (1, 2) /\ is_cell_empty (grid spring0) target = true /\
    new_amoeba o' = Some (length (objects spring0)) /\
    objects m' !! length (objects spring0)
      = Some (mkAmoeba (current_id spring0 + 1) "intact" false None None None) /\
    length (objects m') = S (length (objects spring0)) /\
    grid m' = grid spring0 /\ schedule m' = schedule spring0.
Proof.
  assert (Hq : (0, 2) ∈ moore_torus (grid spring0) (1, 2)).
  { apply list_elem_of_In. vm_compute. auto 10. }
  split; [reflexivity|]. split; [reflexivity|]. split; [exact Hq|]. split; [reflexivity|].
  apply (division_initiated moore_torus spring0 0
           (mkAmoeba 1 "intact" false (Some (1, 2)) None None) (1, 2) (0, 2)).
  - reflexivity.
  - reflexivity.
  - reflexivity.
  - vm_compute. repeat constructor.
  - reflexivity.
  - exact Hq.
  - reflexivity.
Defined.

Lemma tick_lifecycle_witness :
  reachable moore_torus spring1 /\
  exists m',
    Model_step moore_torus spring1 = Ok (tt, m') /\
    (forall c, c ∈ agents (schedule m') -> c ∉ agents (schedule spring1) ->
       exists oc, objects m' !! c = Some oc /\ state oc = "intact"
                  /\ dividing_next_step oc = false /\ is_Some (pos oc)).
Proof.
  split; [exact spring1_reachable|].
  destruct (tick_lifecycle moore_torus spring1 spring1_reachable) as (m' & Hrun & _ & Hnew).
  exists m'. auto.
Defined.

Lemma never_excysted_witness :
  reachable moore_torus spring1 /\
  (forall a o, objects spring1 !! a = Some o ->
     state o <> "excysted" /\ (dividing_next_step o = true <-> state o = "dividing")) /\
  (forall d, d ∈ data_collector spring1 -> d_excysted d = 0%nat).
Proof.
  split; [exact spring1_reachable|].
  exact (never_excysted moore_torus spring1 spring1_reachable).
Defined.

Lemma population_census_witness :
  reachable moore_torus spring1 /\
  size (cells (grid spring1)) = length (agents (schedule spring1)) /\
  exists m',
    Model_step moore_torus spring1 = Ok (tt, m') /\
    (length (agents (schedule spring1)) <= length (agents (schedule m')))%nat /\
    (length (agents (schedule m')) <= 2 * length (agents (schedule spring1)))%nat /\
    size (cells (grid m')) = length (agents (schedule m')).
Proof.
  split; [exact spring1_reachable|].
  exact (population_census moore_torus spring1 spring1_reachable).
Defined.

Lemma metrics_intact_witness :
  reachable moore_torus spring1 /\
  exists m' d born,
    Model_step moore_torus spring1 = Ok (tt, m') /\
    data_collector m' = data_collector spring1 ++ [d] /\
    agents (schedule m') = agents (schedule spring1) ++ born /\
    d_intact d = length born /\ d_excysted d = 0%nat /\
    (d_encysted d + d_dividing d + d_divided d + d_stressed d
     = length (agents (schedule spring1)))%nat.
Proof.
  split; [exact spring1_reachable|].
  exact (metrics_intact_are_newborn moore_torus spring1 spring1_reachable).
Defined.

Lemma log_indices_witness :
  reachable moore_torus spring1 /\
  steps (schedule spring1) = Z.of_nat (length (data_collector spring1)) /\
  forall i d, data_collector spring1 !! i = Some d -> d_step d = Z.of_nat i + 1.
Proof.
  split; [exact spring1_reachable|].
  exact (log_indices moore_torus spring1 spring1_reachable).
Defined.

Lemma run_simulation_returns_witness :
  reachable moore_torus spring1 /\
  exists m' recs born,
    run_simulation moore_torus 6 spring1 = Ok (tt, m') /\ reachable moore_torus m' /\
    data_collector m' = data_collector spring1 ++ recs /\ length recs = 6%nat /\
    steps (schedule m') = steps (schedule spring1) + Z.of_nat 6 /\
    agents (schedule m') = agents (schedule spring1) ++ born /\
    (forall p a, cells (grid spring1) !! p = Some a -> cells (grid m') !! p = Some a) /\
    (forall a o, a ∈ agents (schedule spring1) -> objects spring1 !! a = Some o ->
       exists o', objects m' !! a = Some o' /\ pos o' = pos o
                  /\ unique_id o' = unique_id o).
Proof.
  split; [exact spring1_reachable|].
  exact (run_simulation_returns moore_torus 6 spring1 spring1_reachable).
Defined.

Lemma calendar_of_a_run_witness :
  reachable moore_torus spring1 /\ 1 <= month (environment spring1) <= 12 /\
  exists m' recs,
    run_simulation moore_torus 9 spring1 = Ok (tt, m') /\
    month (environment m') = month_after (month (environment spring1)) 9 /\
    data_collector m' = data_collector spring1 ++ recs /\ length recs = 9%nat /\
    forall i d, recs !! i = Some d ->
      d_month d = month_after (month (environment spring1)) (S i).
Proof.
  assert (H : 1 <= month (environment spring1) <= 12) by (vm_compute; split; discriminate).
  split; [exact spring1_reachable|]. split; [exact H|].
  exact (calendar_of_a_run moore_torus 9 spring1 spring1_reachable H).
Defined.

Lemma calendar_above_twelve_witness :
  Model_init 3 3 13 sample_tape sample_tape = Ok (tt, late0) /\ 12 < 13 /\
  exists m',
    run_simulation moore_torus 5 late0 = Ok (tt, m') /\
    month (environment m') = 13 + Z.of_nat 5 /\
    is_div_condition (environment m') = true /\
    is_encystment_condition (environment m') = false.
Proof.
  assert (H : Model_init 3 3 13 sample_tape sample_tape = Ok (tt, late0)) by reflexivity.
  split; [exact H|]. split; [lia|].
  apply (calendar_above_twelve moore_torus 3 3 13 sample_tape sample_tape late0 5 H). lia.
Defined.

(** ** Who is activated in a tick *)

Section Births.

Variable nbh : SingleGrid -> position -> list position.

Lemma for_each_activates l : forall m m',
  for_each l (Amoeba_step nbh) m = Ok (tt, m') -> activates nbh l m m'.
Proof.
  induction l as [|a l IH]; intros m m' H.
  - injection H as <-. constructor.
  - cbn [for_each] in H. unfold bind at 1 in H.
    destruct (Amoeba_step nbh a m) as [[[] m1]|] eqn:Hstep; [|discriminate].
    econstructor; [exact Hstep|]. now apply IH.
Qed.

Lemma Model_step_keeps_pass m m1 m' :
  RandomActivation_step nbh m = Ok (tt, m1) -> Model_step nbh m = Ok (tt, m') ->
  objects m' = objects m1 /\ agents (schedule m') = agents (schedule m1)
  /\ grid m' = grid m1.
Proof.
  intros Hpass Hstep. unfold Model_step in Hstep.
  rewrite (bind_Ok _ _ _ _ _ Hpass) in Hstep.
  unfold bind at 1 in Hstep. unfold on_environment in Hstep.
  destruct (update_conditions (environment m1) (np_random m1)) as [[e g]|]; [|discriminate].
  rewrite bind_modify in Hstep. unfold bind in Hstep.
  destruct (collect_data _) as [[d m2]|] eqn:Hcol; [|discriminate].
  apply collect_data_pure in Hcol. subst m2.
  unfold modify in Hstep. injection Hstep as <-. auto.
Qed.

Lemma tick_trace m :
  wf m ->
  exists m',
    Model_step nbh m = Ok (tt, m') /\ wf m' /\ visited m m' /\
    tick_activates nbh m m' (activation_order m) /\
    NoDup (activation_order m).
Proof.
  intros Hwf.
  destruct (Model_step_visited nbh m Hwf) as (m' & Hrun & Hwf' & Hvis).
  set (m0 := with_random (shuffle (activation_snapshot m) (random m)).2 m).
  assert (Hwf0 : wf m0) by (apply (wf_ext m); auto; apply (wf_env m Hwf)).
  destruct (for_each_wf nbh (activation_order m) m0 Hwf0) as (m1 & Hfor & _ & _).
  { intros a Ha. unfold activation_order in Ha. rewrite shuffle_perm in Ha. exact Ha. }
  assert (Hpass : RandomActivation_step nbh m
                  = Ok (tt, with_schedule
                              (mkRandomActivation (agents (schedule m1))
                                 (steps (schedule m1) + 1)) m1)).
  { unfold RandomActivation_step. mrun. fold m0. rewrite (bind_Ok _ _ _ _ _ Hfor).
    reflexivity. }
  destruct (Model_step_keeps_pass m _ m' Hpass Hrun) as (Ho & Ha & Hg).
  exists m'. split; [exact Hrun|]. split; [exact Hwf'|]. split; [exact Hvis|]. split.
  - exists m1. split; [now apply for_each_activates|]. auto.
  - unfold activation_order. rewrite shuffle_perm. apply (wf_nodup m Hwf).
Qed.

(** C4 (tick-birth ordering).  The tick T returns and activates exactly the
    organisms of its activation order, each once; that order is a
    rearrangement of the registry as it stood when the tick started.  An
    organism registered during tick T is therefore neither in the snapshot
    nor in the order of tick T, and it ends tick T as it was created: intact,
    with no division pending.  It is in the snapshot and in the order of
    tick T+1, which returns, activates exactly its own order, each organism
    once, and leaves this organism in a state only an activation assigns. *)
Theorem tick_birth_ordering (m : AmoebaDivisionModel) :
  reachable nbh m ->
  exists m',
    Model_step nbh m = Ok (tt, m') /\
    tick_activates nbh m m' (activation_order m) /\
    NoDup (activation_order m) /\
    activation_order m ≡ₚ activation_snapshot m /\
    activation_order m' ≡ₚ activation_snapshot m' /\
    forall c, c ∈ agents (schedule m') -> c ∉ agents (schedule m) ->
      (c ∉ activation_snapshot m) /\ (c ∉ activation_order m) /\
      (exists oc, objects m' !! c = Some oc /\ state oc = "intact"
                  /\ dividing_next_step oc = false) /\
      (c ∈ activation_snapshot m') /\ (c ∈ activation_order m') /\
      exists m'' oc',
        Model_step nbh m' = Ok (tt, m'') /\
        tick_activates nbh m' m'' (activation_order m') /\
        NoDup (activation_order m') /\
        objects m'' !! c = Some oc' /\ state oc' ∈ post_states /\ state oc' <> "intact".
Proof.
  intros Hr. pose proof (reachable_wf nbh m Hr) as Hwf.
  destruct (tick_trace m Hwf) as (m' & Hrun & Hwf' & Hvis & Htr & Hnd).
  destruct (tick_trace m' Hwf') as (m'' & Hrun' & _ & Hvis' & Htr' & Hnd').
  exists m'. split; [exact Hrun|]. split; [exact Htr|]. split; [exact Hnd|].
  split; [apply shuffle_perm|]. split; [apply shuffle_perm|].
  intros c Hin Hout. split; [exact Hout|]. split.
  { unfold activation_order. rewrite shuffle_perm. exact Hout. }
  split.
  { destruct Hvis as [_ (born & Hag & _ & _ & Hnew) _].
    rewrite Hag in Hin. apply elem_of_app in Hin as [Hin | Hin]; [contradiction|].
    destruct (Hnew c Hin) as (oc & Hoc & Hst & Hfl & _). eauto. }
  split; [exact Hin|]. split.
  { unfold activation_order. rewrite shuffle_perm. exact Hin. }
  destruct Hvis' as [Heach _ _].
  destruct (Heach c Hin) as (oc & oc' & _ & Hoc' & Heff).
  exists m'', oc'. split; [exact Hrun'|]. split; [exact Htr'|]. split; [exact Hnd'|].
  split; [exact Hoc'|]. pose proof (eff_state _ _ _ Heff) as Hps. split; [exact Hps|].
  intros E. rewrite E in Hps. unfold post_states in Hps.
  rewrite !elem_of_cons, elem_of_nil in Hps.
  destruct Hps as [H | [H | [H | [H | []]]]]; discriminate H.
Qed.

End Births.

Lemma tick_birth_witness :
  reachable moore_torus spring1 /\
  exists m',
    Model_step moore_torus spring1 = Ok (tt, m') /\
    tick_activates moore_torus spring1 m' (activation_order spring1) /\
    NoDup (activation_order spring1) /\
    activation_order spring1 ≡ₚ activation_snapshot spring1 /\
    activation_order m' ≡ₚ activation_snapshot m' /\
    forall c, c ∈ agents (schedule m') -> c ∉ agents (schedule spring1) ->
      (c ∉ activation_snapshot spring1) /\ (c ∉ activation_order spring1) /\
      (exists oc, objects m' !! c = Some oc /\ state oc = "intact"
                  /\ dividing_next_step oc = false) /\
      (c ∈ activation_snapshot m') /\ (c ∈ activation_order m') /\
      exists m'' oc',
        Model_step moore_torus m' = Ok (tt, m'') /\
        tick_activates moore_torus m' m'' (activation_order m') /\
        NoDup (activation_order m') /\
        objects m'' !! c = Some oc' /\ state oc' ∈ post_states /\ state oc' <> "intact".
Proof.
  split; [exact spring1_reachable|].
  exact (tick_birth_ordering moore_torus spring1 spring1_reachable).
Defined.

(** The tick after [spring1] is one in which an organism is born. *)
Lemma spring1_birth :
  exists m', Model_step moore_torus spring1 = Ok (tt, m') /\
             1%nat ∈ agents (schedule m') /\ 1%nat ∉ agents (schedule spring1).
Proof.
  eexists. split; [vm_compute; reflexivity|]. split.
  - cbn [agents schedule]. apply list_elem_of_In. cbn. auto.
  - intros H. apply list_elem_of_In in H. vm_compute in H. intuition discriminate.
Qed.
